(** * PBS/Torque batch plugin of nipype: [nipype/pipeline/plugins/pbs.py]

    A shallow embedding of [PBSPlugin] ([__init__], [_is_pending] and
    [_submit_batchtask]) together with the Python string operations the
    plugin relies on, and the properties of job naming, submission retry,
    task registration and status classification.  The output listing of
    the CAT12 surface interface, [nipype/interfaces/cat12/surface.py],
    follows in module [Surface].

    Python [str] values are modelled as [string]; Python integers as [Z];
    the [_pending] dictionary as a [gmap string string]. *)

From Stdlib Require Import ZArith Lia Ascii String List.
From stdpp Require Import base option gmap strings.

Open Scope string_scope.
Open Scope Z_scope.

(** ** Python string operations *)

Module Py.

(** Truth value of a [str]: only the empty string is false. *)
Definition truthy (s : string) : bool :=
  match s with
  | EmptyString => false
  | String _ _ => true
  end.

(** [s.startswith(p)]. *)
Fixpoint startswith (p s : string) : bool :=
  match p, s with
  | EmptyString, _ => true
  | String _ _, EmptyString => false
  | String a p', String b s' => if Ascii.eqb a b then startswith p' s' else false
  end.

(** [needle in s]: [needle] occurs in [s] as a contiguous substring. *)
Fixpoint contains (needle s : string) : bool :=
  startswith needle s ||
  match s with
  | EmptyString => false
  | String _ s' => contains needle s'
  end.

(** [needle] occurs in [s]: [s] is some text, then [needle], then some
    more text.  This is what [contains] decides ([contains_spec]). *)
Definition occurs_in (needle s : string) : Prop :=
  exists pre post, s = pre +:+ needle +:+ post.

(** [sep.join(items)]. *)
Fixpoint join (sep : string) (items : list string) : string :=
  match items with
  | [] => ""
  | [x] => x
  | x :: rest => x +:+ sep +:+ join sep rest
  end.

(** [s.split(sep)] for a one-character separator; the result is never
    the empty list ([''.split('.')] is [['']]). *)
Fixpoint split (sep : ascii) (s : string) : list string :=
  match s with
  | EmptyString => [""]
  | String c s' =>
      if Ascii.eqb c sep then "" :: split sep s'
      else match split sep s' with
           | [] => [String c ""]
           | w :: ws => String c w :: ws
           end
  end.

(** Index adjustment of a slice bound against a sequence of length
    [len]: negative bounds count from the end, and everything is
    clamped to [0 .. len]. *)
Definition adjust_index (i len : Z) : Z :=
  if i <? 0 then Z.max (i + len) 0 else Z.min i len.

(** [s[start:stop]]. *)
Definition slice (s : string) (start stop : Z) : string :=
  let len := Z.of_nat (String.length s) in
  let start' := adjust_index start len in
  let stop' := adjust_index stop len in
  if stop' <? start' then ""
  else String.substring (Z.to_nat start') (Z.to_nat (stop' - start')) s.

(** [s.rfind(c)] for a one-character [c]: index of the last occurrence,
    [-1] when there is none. *)
Fixpoint rfind (c : ascii) (s : string) : Z :=
  match s with
  | EmptyString => -1
  | String a s' =>
      let r := rfind c s' in
      if 0 <=? r then r + 1
      else if Ascii.eqb a c then 0 else -1
  end.

(** Every character of [s] is [c] (also true of the empty string). *)
Fixpoint all_chars (c : ascii) (s : string) : bool :=
  match s with
  | EmptyString => true
  | String a s' => Ascii.eqb a c && all_chars c s'
  end.

(** [s.rstrip(c)] for a one-character [c]. *)
Fixpoint rstrip (c : ascii) (s : string) : string :=
  match s with
  | EmptyString => ""
  | String a s' =>
      match rstrip c s' with
      | EmptyString => if Ascii.eqb a c then "" else String a ""
      | rest => String a rest
      end
  end.

(** [s.replace(old, new)]: every non-overlapping occurrence of [old],
    scanning from the left.  [skip] counts the characters of an
    occurrence already replaced that are still to be dropped. *)
Fixpoint replace_from (old new : string) (skip : nat) (s : string) : string :=
  match s with
  | EmptyString => ""
  | String c s' =>
      match skip with
      | S k => replace_from old new k s'
      | O =>
          if startswith old s
          then new +:+ replace_from old new (Nat.pred (String.length old)) s'
          else String c (replace_from old new 0 s')
      end
  end.

(** With an empty [old], [new] is inserted before every character and
    at the end. *)
Fixpoint intersperse (new s : string) : string :=
  match s with
  | EmptyString => new
  | String c s' => new +:+ String c (intersperse new s')
  end.

Definition replace (s old new : string) : string :=
  match old with
  | EmptyString => intersperse new s
  | String _ _ => replace_from old new 0 s
  end.

(** [seq[0]] on a list: [None] stands for [IndexError]. *)
Definition item0 {A} (l : list A) : option A :=
  match l with
  | [] => None
  | x :: _ => Some x
  end.

End Py.

(** ** [os.path] (POSIX flavour) *)

Module OsPath.

Definition sep : ascii := "/"%char.
Definition extsep : ascii := "."%char.

(** [posixpath.dirname]. *)
Definition dirname (p : string) : string :=
  let i := Py.rfind sep p + 1 in
  let head := Py.slice p 0 i in
  if Py.truthy head && negb (Py.all_chars sep head)
  then Py.rstrip sep head
  else head.

(** [posixpath.splitext] ([genericpath._splitext] with no [altsep]):
    the extension starts at the last dot of the last path component,
    unless that component consists of leading dots only up to there. *)
Definition splitext (p : string) : string * string :=
  let sepIndex := Py.rfind sep p in
  let dotIndex := Py.rfind extsep p in
  let len := Z.of_nat (String.length p) in
  if (sepIndex <? dotIndex)
     && negb (Py.all_chars extsep (Py.slice p (sepIndex + 1) dotIndex))
  then (Py.slice p 0 dotIndex, Py.slice p dotIndex len)
  else (p, "").

End OsPath.

(** ** Data model *)

(** The entries of [node.plugin_args] that [_submit_batchtask] reads:
    [None] is an absent key; the value of ["overwrite"] is kept as its
    truth value. *)
Record PluginArgs := {
  pa_qsub_args : option string;
  pa_overwrite : option bool
}.

(** A workflow node, as far as the plugin looks at it. *)
Record Node := {
  _hierarchy : string;
  _id : string;
  plugin_args : PluginArgs;
  output_dir : string
}.

(** [CommandLine(command, ...)] with its [inputs.args]. *)
Record CommandLine := {
  command : string;
  args : string
}.

(** The plugin object: [_qsub_args] and [_pending] are set up by the base
    class, the other three by [PBSPlugin.__init__]. *)
Record PBSPlugin := {
  _qsub_args : option string;
  _retry_timeout : Z;
  _max_tries : Z;
  _max_jobname_len : Z;
  _pending : gmap string string
}.

(** Exceptions outside the [Exception] hierarchy: an [except Exception]
    clause does not catch them. *)
Inductive BaseExc :=
| KeyboardInterrupt
| SystemExit
| GeneratorExit.

(** Exceptions that leave [_submit_batchtask]: the missing environment
    variable, the submission error, an index out of range, the two
    errors of [time.sleep], and whatever [cmd.run()] raises outside the
    [Exception] hierarchy. *)
Inductive Exn :=
| KeyError (key : string)
| RuntimeError (msg : string)
| IndexError
| ValueError
| OverflowError
| NotException (e : BaseExc).

Inductive Result (A : Type) :=
| Ok (a : A)
| Raise (e : Exn).
Arguments Ok {A} a.
Arguments Raise {A} e.

(** What [cmd.run()] does at one call: it raises an [Exception] (kept
    as its text, [str(e)]), it raises an exception that is not an
    [Exception] (the user interrupts the run, the interpreter exits), or
    it returns a runtime with the captured streams. *)
Record Runtime := {
  stdout : string;
  stderr : string
}.

Inductive RunOutcome :=
| Raised (e : string)
| Interrupted (e : BaseExc)
| Returned (r : Runtime).

(** The command executor seen from the plugin: the outcome of a run is
    determined by the command and by how many runs came before it. *)
Definition Executor := CommandLine -> nat -> RunOutcome.

(** The ambient state around the plugin: the process environment, the
    level of the [nipype.interface] logger, the arguments of the [sleep]
    calls that slept so far, and the runs so far, each with the logger
    level in force while it ran (both logs oldest first). *)
Record World := {
  environ : gmap string string;
  iflogger_level : Z;
  slept : list Z;
  runs : list (CommandLine * Z)
}.

Definition setLevel (lvl : Z) (w : World) : World :=
  {| environ := environ w; iflogger_level := lvl;
     slept := slept w; runs := runs w |}.

(** The largest number of seconds [time.sleep] takes: CPython keeps the
    duration as a 64-bit count of nanoseconds. *)
Definition SLEEP_MAX : Z := 9223372036.

(** [time.sleep(secs)] for an integer [secs]: [OverflowError] when the
    duration does not fit, [ValueError] when it is negative; otherwise
    the process sleeps. *)
Definition sleep (secs : Z) (w : World) : Result World :=
  if (secs <? - SLEEP_MAX) || (SLEEP_MAX <? secs) then Raise OverflowError
  else if secs <? 0 then Raise ValueError
  else Ok {| environ := environ w; iflogger_level := iflogger_level w;
             slept := slept w ++ [secs]; runs := runs w |}.

(** The durations that [sleep] accepts. *)
Definition sleepable (secs : Z) : Prop := 0 <= secs <= SLEEP_MAX.

Definition record_run (cmd : CommandLine) (w : World) : World :=
  {| environ := environ w; iflogger_level := iflogger_level w;
     slept := slept w; runs := runs w ++ [(cmd, iflogger_level w)] |}.

Definition set_pending (p : gmap string string) (self : PBSPlugin) : PBSPlugin :=
  {| _qsub_args := _qsub_args self; _retry_timeout := _retry_timeout self;
     _max_tries := _max_tries self; _max_jobname_len := _max_jobname_len self;
     _pending := p |}.

(** [logging.getLevelName("CRITICAL")]. *)
Definition CRITICAL : Z := 50.

(** ** [PBSPlugin.__init__] *)

(** The keys of the [plugin_args] keyword argument read by [__init__]. *)
Record InitArgs := {
  ia_retry_timeout : option Z;
  ia_max_tries : option Z;
  ia_max_jobname_len : option Z
}.

(** [base_qsub_args] and [base_pending] are what the base-class
    initialiser leaves in [_qsub_args] and [_pending]. *)
Definition __init__ (kwargs : option InitArgs)
    (base_qsub_args : option string) (base_pending : gmap string string) : PBSPlugin :=
  let retry_timeout := 2 in
  let max_tries := 2 in
  let max_jobname_len := 15 in
  match kwargs with
  | Some pa =>
      {| _qsub_args := base_qsub_args;
         _retry_timeout := default retry_timeout (ia_retry_timeout pa);
         _max_tries := default max_tries (ia_max_tries pa);
         _max_jobname_len := default max_jobname_len (ia_max_jobname_len pa);
         _pending := base_pending |}
  | None =>
      {| _qsub_args := base_qsub_args;
         _retry_timeout := retry_timeout;
         _max_tries := max_tries;
         _max_jobname_len := max_jobname_len;
         _pending := base_pending |}
  end.

(** ** [PBSPlugin._is_pending] *)

Definition status_command (taskid : string) : CommandLine :=
  {| command := "qstat -f " +:+ taskid; args := "" |}.

(** The status query runs with [ignore_exception=True]: it always yields
    a runtime. *)
Definition _is_pending (qstat : CommandLine -> Runtime) (taskid : string) : bool :=
  let result := qstat (status_command taskid) in
  let stdout := stdout result in
  let stderr := stderr result in
  let errmsg := "Unknown Job Id" in
  let success := "Job has finished" in
  if Py.contains success stderr || Py.contains "job_state = C" stdout
  then false
  else negb (Py.contains errmsg stderr).

(** ** [PBSPlugin._submit_batchtask] *)

(** The source file carries an unresolved merge at the assignment of
    [cmd.inputs.args]; both sides are modelled. *)
Inductive MergeSide := HEAD | Incoming.

Definition dquote : string := String (ascii_of_nat 34) "".

Definition python_exe : string :=
  "/home/predatt/giaald/.conda/envs/giacomo/bin/python".

(** Lines 72-79: the global arguments, replaced or extended by the
    node's own. *)
Definition merged_qsubargs (self : PBSPlugin) (node : Node) : string :=
  let qsubargs := "" in
  let qsubargs :=
    match _qsub_args self with
    | Some a => if Py.truthy a then a else qsubargs
    | None => qsubargs
    end in
  match pa_qsub_args (plugin_args node) with
  | Some node_args =>
      match pa_overwrite (plugin_args node) with
      | Some true => node_args
      | _ => qsubargs +:+ " " +:+ node_args
      end
  | None => qsubargs
  end.

(** Lines 80-83: the output redirections. *)
Definition with_redirects (path qsubargs : string) : string :=
  let qsubargs :=
    if negb (Py.contains "-o" qsubargs) then qsubargs +:+ " -o " +:+ path
    else qsubargs in
  let qsubargs :=
    if negb (Py.contains "-e" qsubargs) then qsubargs +:+ " -e " +:+ path
    else qsubargs in
  qsubargs.

(** Lines 84-91: the job name. *)
Definition build_jobname (logname hierarchy id : string) (max_jobname_len : Z) : string :=
  let jobname :=
    if Py.truthy hierarchy then Py.join "." [logname; hierarchy; id]
    else Py.join "." [logname; id] in
  let jobnameitems := Py.split "." jobname in
  let jobnameitems := rev jobnameitems in
  let jobname := Py.join "." jobnameitems in
  Py.slice jobname 0 max_jobname_len.

(** Lines 92-101: [cmd.inputs.args], on either side of the merge. *)
Definition submit_args (side : MergeSide) (scriptfile qsubargs jobname : string) : string :=
  match side with
  | HEAD =>
      let '(py_filename, file_extension) := OsPath.splitext scriptfile in
      let py_filename := Py.replace py_filename "batchscript_" "" in
      let py_filename := py_filename +:+ ".py" in
      " " +:+ dquote +:+ python_exe +:+ " " +:+ py_filename +:+ dquote
        +:+ " | qsub " +:+ qsubargs +:+ " -N " +:+ jobname
  | Incoming =>
      qsubargs +:+ " -N " +:+ jobname +:+ " " +:+ scriptfile
  end.

(** Lines 65-101, once [LOGNAME] has been read from the environment. *)
Definition submit_command (side : MergeSide) (self : PBSPlugin)
    (logname scriptfile : string) (node : Node) : CommandLine :=
  let path := OsPath.dirname scriptfile in
  let qsubargs := with_redirects path (merged_qsubargs self node) in
  let jobname :=
    build_jobname logname (_hierarchy node) (_id node) (_max_jobname_len self) in
  {| command := "echo"; args := submit_args side scriptfile qsubargs jobname |}.

Definition submit_error (node : Node) (e : string) : Exn :=
  RuntimeError ("Could not submit pbs task for node " +:+ _id node
                +:+ String (ascii_of_nat 10) "" +:+ e).

Section SubmitLoop.

Variable exec : Executor.
Variable self : PBSPlugin.
Variable node : Node.
Variable cmd : CommandLine.
Variable oldlevel : Z.

(** Lines 106-120, the [while True] loop.  [fuel] bounds the number of
    iterations; [None] means the bound was reached.  An exception that
    [sleep] raises inside the handler, and one of [cmd.run()] that the
    handler does not catch, leave the loop and the method at once: no
    [setLevel] lies on their way. *)
Fixpoint submit_loop (fuel : nat) (tries : Z) (w : World)
    : option (Result Runtime * World) :=
  match fuel with
  | O => None
  | S fuel' =>
      let outcome := exec cmd (length (runs w)) in
      let w := record_run cmd w in
      match outcome with
      | Raised e =>
          if tries <? _max_tries self then
            let tries := tries + 1 in
            match sleep (_retry_timeout self) w with
            | Ok w => submit_loop fuel' tries w
            | Raise e' => Some (Raise e', w)
            end
          else
            let w := setLevel oldlevel w in
            Some (Raise (submit_error node e), w)
      | Interrupted e => Some (Raise (NotException e), w)
      | Returned result => Some (Ok result, w)
      end
  end.

End SubmitLoop.

(** The whole method, with the iteration bound of the loop as a
    parameter.  The result is the returned task id or the exception, the
    plugin object and the ambient state afterwards. *)
Definition submit_batchtask_fuel (fuel : nat) (side : MergeSide) (exec : Executor)
    (self : PBSPlugin) (w : World) (scriptfile : string) (node : Node)
    : option (Result string * PBSPlugin * World) :=
  match environ w !! "LOGNAME" with
  | None => Some (Raise (KeyError "LOGNAME"), self, w)
  | Some logname =>
      let cmd := submit_command side self logname scriptfile node in
      let oldlevel := iflogger_level w in
      let w := setLevel CRITICAL w in
      let tries := 0 in
      match submit_loop exec self node cmd oldlevel fuel tries w with
      | None => None
      | Some (Raise e, w) => Some (Raise e, self, w)
      | Some (Ok result, w) =>
          let w := setLevel oldlevel w in
          match Py.item0 (Py.split "." (stdout result)) with
          | None => Some (Raise IndexError, self, w)
          | Some taskid =>
              let self := set_pending (<[taskid := output_dir node]> (_pending self)) self in
              Some (Ok taskid, self, w)
          end
      end
  end.

(** The loop runs at most [_max_tries + 1] times, so this much fuel is
    never used up (see [submit_loop_terminates]). *)
Definition submit_fuel (self : PBSPlugin) : nat := S (Z.to_nat (_max_tries self)).

Definition _submit_batchtask (side : MergeSide) (exec : Executor)
    (self : PBSPlugin) (w : World) (scriptfile : string) (node : Node)
    : option (Result string * PBSPlugin * World) :=
  submit_batchtask_fuel (submit_fuel self) side exec self w scriptfile node.

(** The ambient state after [k] failed attempts of [cmd], each followed
    by a sleep of [secs]. *)
Definition after_failures (cmd : CommandLine) (secs : Z) (k : nat) (w : World) : World :=
  {| environ := environ w; iflogger_level := iflogger_level w;
     slept := slept w ++ repeat secs k;
     runs := runs w ++ repeat (cmd, iflogger_level w) k |}.

(** ** The specification's wording *)

Module Spec.

(** Job Name Builder: the user name, the hierarchy (when there is one)
    and the leaf id, joined with dots. *)
Definition dotted (userName hierarchy leafId : string) : string :=
  match hierarchy with
  | EmptyString => userName +:+ "." +:+ leafId
  | String _ _ => userName +:+ "." +:+ hierarchy +:+ "." +:+ leafId
  end.

(** The dot-separated segments of a string, read from left to right;
    [cur] is the segment being read. *)
Fixpoint segments_from (cur s : string) : list string :=
  match s with
  | EmptyString => [cur]
  | String c s' =>
      if Ascii.eqb c "."%char then cur :: segments_from "" s'
      else segments_from (cur +:+ String c "") s'
  end.

Definition segments (s : string) : list string := segments_from "" s.

(** Join, split on the dot, reverse, rejoin, keep the first [maxLen]
    characters. *)
Definition buildJobName (userName hierarchy leafId : string) (maxLen : nat) : string :=
  String.substring 0 maxLen
    (String.concat "." (rev (segments (dotted userName hierarchy leafId)))).

(** The text of a reply before its first dot (all of it when it has no
    dot). *)
Fixpoint before_first_dot (s : string) : string :=
  match s with
  | EmptyString => ""
  | String c s' =>
      if Ascii.eqb c "."%char then "" else String c (before_first_dot s')
  end.

(** How many times [needle] occurs in [s], counting every position at
    which it starts. *)
Fixpoint occurrences (needle s : string) : nat :=
  ((if Py.startswith needle s then 1 else 0) +
   match s with
   | EmptyString => 0
   | String _ s' => occurrences needle s'
   end)%nat.



End Spec.

(** ** Sample inputs *)

Module Sample.

(** A node [wf.branch.node1] without plugin arguments of its own. *)
Definition node1 : Node :=
  {| _hierarchy := "wf.branch"; _id := "node1";
     plugin_args := {| pa_qsub_args := None; pa_overwrite := None |};
     output_dir := "/data/wf/node1" |}.

Definition script1 : string := "/data/wf/batchscript_node1.sh".


(** A plugin with the default settings and nothing pending. *)
Definition plugin0 : PBSPlugin := __init__ None None ∅.

(** User [alice], logger at level 20 (INFO), nothing run or slept. *)
Definition world0 : World :=
  {| environ := {[ "LOGNAME" := "alice" ]}; iflogger_level := 20;
     slept := []; runs := [] |}.

Definition reply (out : string) : RunOutcome :=
  Returned {| stdout := out; stderr := "" |}.

(** Every run raises. *)
Definition always_failing : Executor := fun _ _ => Raised "qsub: cannot connect".

(** The first run raises, the second one answers [1234.server]. *)
Definition failing_once : Executor :=
  fun _ n => match n with
             | O => Raised "qsub: cannot connect"
             | S _ => reply "1234.server"
             end.

(** The first run succeeds with an empty reply. *)
Definition empty_reply : Executor := fun _ _ => reply "".

(** The first run succeeds with a reply that has no dot. *)
Definition dotless_reply : Executor := fun _ _ => reply "4711".

(** The user interrupts the first run. *)
Definition interrupted : Executor := fun _ _ => Interrupted KeyboardInterrupt.

(** A plugin configured with a retry interval of [-1]. *)
Definition plugin_negative_timeout : PBSPlugin :=
  __init__ (Some {| ia_retry_timeout := Some (-1); ia_max_tries := None;
                    ia_max_jobname_len := None |}) None ∅.

(** A node that brings its own [-o] and [-e]. *)
Definition node_with_redirects : Node :=
  {| _hierarchy := "wf.branch"; _id := "node1";
     plugin_args := {| pa_qsub_args := Some "-o /logs/out -e /logs/err";
                       pa_overwrite := Some true |};
     output_dir := "/data/wf/node1" |}.

(** A status query answering that the job is unknown. *)
Definition qstat_unknown : CommandLine -> Runtime :=
  fun _ => {| stdout := ""; stderr := "qstat: Unknown Job Id 1234.server" |}.

End Sample.

(** ** Further definitions *)

(** The job-name transform of lines 88-90 on its own: split on the dot,
    reverse the items, rejoin with dots. *)
Definition reverse_segments (s : string) : string :=
  Py.join "." (rev (Py.split "." s)).

Module Sample2.

(** A second node of the same workflow. *)
Definition node2 : Node :=
  {| _hierarchy := "wf.branch"; _id := "node2";
     plugin_args := {| pa_qsub_args := None; pa_overwrite := None |};
     output_dir := "/data/wf/node2" |}.

Definition script2 : string := "/data/wf/batchscript_node2.sh".

(** The scheduler numbers the jobs: the first run answers [1.server],
    every later one [2.server]. *)
Definition numbering : Executor :=
  fun _ n => match n with
             | O => Sample.reply "1.server"
             | S _ => Sample.reply "2.server"
             end.


(** The plugin and the ambient state after the first and after the
    second submission of the sample nodes under [numbering]. *)
Definition plugin1 : PBSPlugin :=
  set_pending (<["1" := "/data/wf/node1"]> ∅) Sample.plugin0.

Definition world1 : World :=
  {| environ := environ Sample.world0; iflogger_level := 20; slept := [];
     runs := [(submit_command HEAD Sample.plugin0 "alice" Sample.script1 Sample.node1,
               CRITICAL)] |}.

Definition plugin2 : PBSPlugin :=
  set_pending (<["2" := "/data/wf/node2"]> (_pending plugin1)) plugin1.

Definition world2 : World :=
  {| environ := environ Sample.world0; iflogger_level := 20; slept := [];
     runs := runs world1 ++
             [(submit_command HEAD plugin1 "alice" script2 node2, CRITICAL)] |}.

End Sample2.

(** ** [nipype/interfaces/cat12/surface.py] *)

Module Surface.

(** The value of an output trait: not set, or a list of file names. *)
Inductive TraitValue :=
| Undefined
| FileList (files : list string).

Definition isdefined (v : TraitValue) : bool :=
  match v with
  | Undefined => false
  | FileList _ => true
  end.

(** Exceptions that the dictionary and list operations of
    [_list_outputs] can raise. *)
Inductive Exc :=
| ExcKeyError (key : string)
| ExcAttributeError
| ExcIndexError.

Inductive Res (A : Type) :=
| Done (a : A)
| Raises (e : Exc).
Arguments Done {A} a.
Arguments Raises {A} e.

Definition bind {A B} (m : Res A) (k : A -> Res B) : Res B :=
  match m with
  | Done a => k a
  | Raises e => Raises e
  end.

(** A [for] loop over [items] whose body updates the state or raises. *)
Fixpoint for_each {A S} (body : A -> S -> Res S) (items : list A) (s : S) : Res S :=
  match items with
  | [] => Done s
  | x :: rest => bind (body x s) (for_each body rest)
  end.

(** [s.split(sep, maxsplit)] for a one-character separator and a
    non-negative [maxsplit]: at most [maxsplit] cuts, from the left. *)
Fixpoint split_max (sep : ascii) (s : string) (maxsplit : nat) {struct s} : list string :=
  match s with
  | EmptyString => [""]
  | String c s' =>
      match maxsplit with
      | O => [s]
      | S n =>
          if Ascii.eqb c sep then "" :: split_max sep s' n
          else match split_max sep s' maxsplit with
               | [] => [String c ""]
               | w :: ws => String c w :: ws
               end
      end
  end.

(** [seq[-1]] on a list. *)
Definition item_last {A} (l : list A) : Res A :=
  match rev l with
  | [] => Raises ExcIndexError
  | x :: _ => Done x
  end.

(** [s.endswith(c)] for a one-character [c]. *)
Fixpoint endswith (c : ascii) (s : string) : bool :=
  match s with
  | EmptyString => false
  | String a EmptyString => Ascii.eqb a c
  | String _ s' => endswith c s'
  end.

(** [posixpath.join(a, b)]. *)
Definition path_join (a b : string) : string :=
  if Py.startswith "/" b then b
  else if negb (Py.truthy a) || endswith "/" a then a +:+ b
  else a +:+ "/" +:+ b.

(** The inputs of [ExtractAdditionalSurfaceParameters] that
    [_list_outputs] reads. *)
Record Inputs := {
  left_central_surfaces : list string;
  gyrification : bool;
  gmv : bool;
  area : bool;
  depth : bool;
  fractal_dimension : bool
}.

(** [self._outputs().get()]: every trait of
    [ExtractAdditionalSurfaceParametersOutputSpec], not set. *)
Definition outputs_get : gmap string TraitValue :=
  list_to_map
    [("lh_extracted_files", Undefined); ("rh_extracted_files", Undefined);
     ("lh_gyrification", Undefined); ("rh_gyrification", Undefined);
     ("lh_gmv", Undefined); ("rh_gmv", Undefined);
     ("lh_area", Undefined); ("rh_area", Undefined);
     ("lh_depth", Undefined); ("rh_depth", Undefined);
     ("lh_fractaldimension", Undefined); ("rh_fractaldimension", Undefined)].

(** [outputs[key]]. *)
Definition getitem (outputs : gmap string TraitValue) (key : string) : Res TraitValue :=
  match outputs !! key with
  | Some v => Done v
  | None => Raises (ExcKeyError key)
  end.

(** [outputs[key].append(x)]. *)
Definition append (outputs : gmap string TraitValue) (key x : string)
    : Res (gmap string TraitValue) :=
  bind (getitem outputs key) (fun v =>
    match v with
    | Undefined => Raises ExcAttributeError
    | FileList files => Done (<[key := FileList (files ++ [x])]> outputs)
    end).

(** [outputs[key] = []] unless [outputs[key]] is set. *)
Definition ensure_list (outputs : gmap string TraitValue) (key : string)
    : Res (gmap string TraitValue) :=
  bind (getitem outputs key) (fun v =>
    if negb (isdefined v) then Done (<[key := FileList []]> outputs)
    else Done outputs).

(** Line 138: [base.split(".", 2)[-1]]. *)
Definition original_filename (base : string) : Res string :=
  item_last (split_max "." base 2).

(** The same without the error case, which never arises
    ([original_filename_total]). *)
Definition original_name (base : string) : string :=
  match rev (split_max "." base 2) with
  | [] => ""
  | x :: _ => x
  end.

(** Lines 142-159, the body of the innermost loop. *)
Definition add_generated (pth original parameter_name hemisphere : string)
    (outputs : gmap string TraitValue) : Res (gmap string TraitValue) :=
  let all_files_hemisphere := hemisphere +:+ "_extracted_files" in
  let name_hemisphere := hemisphere +:+ "_" +:+ parameter_name in
  bind (ensure_list outputs name_hemisphere) (fun outputs =>
  bind (ensure_list outputs all_files_hemisphere) (fun outputs =>
  let generated_filename := Py.join "." [hemisphere; parameter_name; original] in
  bind (append outputs name_hemisphere (path_join pth generated_filename)) (fun outputs =>
  append outputs all_files_hemisphere (path_join pth generated_filename)))).

Definition names_outputs (inputs : Inputs) : list (bool * string) :=
  [(gyrification inputs, "gyrification");
   (gmv inputs, "gmv");
   (area inputs, "area");
   (depth inputs, "depth");
   (fractal_dimension inputs, "fractaldimension")].

Section ListOutputs.

(** [nipype.utils.filemanip.split_filename]: directory, base name and
    extension of a file name. *)
Variable split_filename : string -> string * string * string.

(** Lines 135-159, the body of the loop over the input files. *)
Definition add_file (inputs : Inputs) (filename : string)
    (outputs : gmap string TraitValue) : Res (gmap string TraitValue) :=
  let '(pth, base, ext) := split_filename filename in
  bind (original_filename base) (fun original =>
  for_each
    (fun '(extracted_parameter, parameter_name) outputs =>
       if (extracted_parameter : bool) then
         for_each (add_generated pth original parameter_name) ["rh"; "lh"] outputs
       else Done outputs)
    (names_outputs inputs) outputs).

(** [ExtractAdditionalSurfaceParameters._list_outputs]. *)
Definition _list_outputs (inputs : Inputs) : Res (gmap string TraitValue) :=
  let outputs := outputs_get in
  for_each (add_file inputs) (left_central_surfaces inputs) outputs.

(** The file that is generated for one input file, one hemisphere and
    one parameter, written out: the directory of the input file, a
    slash unless the directory is empty or ends with one, and
    [<hemisphere>.<parameter>.<original>]. *)
Definition generated_file (filename hemisphere parameter_name : string) : string :=
  let '(pth, base, ext) := split_filename filename in
  (if negb (Py.truthy pth) || endswith "/" pth then pth else pth +:+ "/")
    +:+ hemisphere +:+ "." +:+ parameter_name +:+ "." +:+ original_name base.

(** What the loops do for one input file, as a list of appends: the key
    and the file appended, in the order of the code. *)
Definition file_events (inputs : Inputs) (filename : string) : list (string * string) :=
  flat_map
    (fun '(extracted_parameter, parameter_name) =>
       if (extracted_parameter : bool) then
         flat_map
           (fun hemisphere =>
              [(hemisphere +:+ "_" +:+ parameter_name,
                generated_file filename hemisphere parameter_name);
               (hemisphere +:+ "_extracted_files",
                generated_file filename hemisphere parameter_name)])
           ["rh"; "lh"]
       else [])
    (names_outputs inputs).

End ListOutputs.

(** [outputs[key].append(x)] on a key that is there, with a fresh list
    when the output was not set. *)
Definition push (key x : string) (outputs : gmap string TraitValue)
    : gmap string TraitValue :=
  <[key := FileList (match outputs !! key with
                     | Some (FileList files) => files
                     | _ => []
                     end ++ [x])]> outputs.

Definition pushes (events : list (string * string)) (outputs : gmap string TraitValue)
    : gmap string TraitValue :=
  fold_left (fun outputs '(key, x) => push key x outputs) events outputs.

(** The appends of [events] that go to [key]. *)
Definition appended_to (key : string) (events : list (string * string)) : list string :=
  map snd (List.filter (fun ev => String.eqb (fst ev) key) events).

(** The traits of the output specification. *)
Definition output_names : list string :=
  ["lh_extracted_files"; "rh_extracted_files";
   "lh_gyrification"; "rh_gyrification"; "lh_gmv"; "rh_gmv";
   "lh_area"; "rh_area"; "lh_depth"; "rh_depth";
   "lh_fractaldimension"; "rh_fractaldimension"].

(** Every trait of the output specification is a key of [outputs]. *)
Definition all_present (outputs : gmap string TraitValue) : Prop :=
  forall key, In key output_names -> is_Some (outputs !! key).

(** The names of the parameters that are switched on, in the order of
    [names_outputs]. *)
Definition enabled_parameters (inputs : Inputs) : list string :=
  map snd (List.filter (fun '(flag, _) => (flag : bool)) (names_outputs inputs)).

(** An output that holds the files [files]: not set when there are none. *)
Definition output_of (files : list string) : TraitValue :=
  match files with
  | [] => Undefined
  | _ :: _ => FileList files
  end.

Definition files_of (v : TraitValue) : list string :=
  match v with
  | Undefined => []
  | FileList files => files
  end.

(** A stand-in for [split_filename] in the examples: the directory, the
    base name without its last extension, and that extension. *)
Definition split_sample (filename : string) : string * string * string :=
  let '(root, ext) := OsPath.splitext filename in
  (OsPath.dirname filename,
   Py.slice root (Py.rfind "/" root + 1) (Z.of_nat (String.length root)),
   ext).

Definition sample_inputs : Inputs :=
  {| left_central_surfaces := ["/data/surf/lh.central.structural.gii"];
     gyrification := true; gmv := true; area := true;
     depth := false; fractal_dimension := false |}.

End Surface.

(** ** Facts about the string operations *)

Module PyFacts.
Import Py.

Lemma app_nil_l (s : string) : "" +:+ s = s.
Proof. reflexivity. Qed.

Lemma app_cons (c : ascii) (s t : string) : String c s +:+ t = String c (s +:+ t).
Proof. reflexivity. Qed.

Lemma app_nil_r (s : string) : s +:+ "" = s.
Proof. induction s as [|c s IH]; [reflexivity|]. now rewrite app_cons, IH. Qed.

Lemma app_assoc (s t u : string) : (s +:+ t) +:+ u = s +:+ t +:+ u.
Proof. induction s as [|c s IH]; [reflexivity|]. now rewrite !app_cons, IH. Qed.

Lemma length_app (s t : string) :
  String.length (s +:+ t) = (String.length s + String.length t)%nat.
Proof. induction s as [|c s IH]; [reflexivity|]. rewrite app_cons. simpl. now rewrite IH. Qed.

(** [p] is a prefix of [s]. *)
Lemma startswith_spec (p s : string) :
  startswith p s = true <-> exists post, s = p +:+ post.
Proof.
  revert s. induction p as [|a p IH]; intros s; simpl.
  - split; [intros _; now exists s | reflexivity].
  - destruct s as [|b s].
    + split; [discriminate | intros [post H]; rewrite app_cons in H; discriminate].
    + destruct (Ascii.eqb_spec a b) as [->|Hne].
      * rewrite IH. split; intros [post H]; exists post.
        -- now rewrite app_cons, H.
        -- rewrite app_cons in H. now injection H.
      * split; [discriminate|]. intros [post H]. rewrite app_cons in H.
        injection H as H1 _. now destruct Hne.
Qed.

Lemma contains_spec (needle s : string) :
  contains needle s = true <-> occurs_in needle s.
Proof.
  unfold occurs_in. induction s as [|c s IH].
  - simpl. rewrite orb_false_r, startswith_spec. split.
    + intros [post H]. now exists "", post.
    + intros [[|a pre] [post H]]; [now exists post|].
      rewrite app_cons in H. discriminate.
  - cbn [contains]. rewrite orb_true_iff, IH, startswith_spec. split.
    + intros [[post H]|[pre [post H]]].
      * now exists "", post.
      * exists (String c pre), post. now rewrite app_cons, H.
    + intros [[|a pre] [post H]].
      * left. now exists post.
      * right. rewrite app_cons in H. injection H as _ H. now exists pre, post.
Qed.

Lemma contains_false_spec (needle s : string) :
  contains needle s = false <-> ~ occurs_in needle s.
Proof.
  rewrite <- contains_spec. destruct (contains needle s); split; intros H; try easy.
Qed.

(** *** Slices *)

Lemma length_substring_le (n m : nat) (s : string) :
  (String.length (String.substring n m s) <= m)%nat.
Proof.
  revert n m. induction s as [|c s IH]; intros [|n] [|m]; simpl; try lia.
  - specialize (IH 0%nat m). lia.
  - apply (IH n 0%nat).
  - apply (IH n (S m)).
Qed.

Lemma adjust_index_0 (len : Z) : 0 <= len -> adjust_index 0 len = 0.
Proof. intros H. unfold adjust_index. change (0 <? 0) with false. cbv iota. lia. Qed.

Lemma adjust_index_nonneg (i len : Z) :
  0 <= i -> adjust_index i len = Z.min i len.
Proof. intros H. unfold adjust_index. destruct (Z.ltb_spec i 0); [lia | reflexivity]. Qed.

Lemma substring_all (s : string) (n : nat) :
  (String.length s <= n)%nat ->
  String.substring 0 (String.length s) s = String.substring 0 n s.
Proof.
  revert n. induction s as [|c s IH]; intros [|n] Hn; simpl in *;
    try reflexivity; try lia.
  f_equal. apply IH. lia.
Qed.

(** With a non-negative [stop], [s[0:stop]] is the first [stop]
    characters of [s] (all of [s] when it is shorter). *)
Lemma slice_prefix (s : string) (n : nat) :
  slice s 0 (Z.of_nat n) = String.substring 0 n s.
Proof.
  unfold slice.
  rewrite adjust_index_0, adjust_index_nonneg by lia.
  destruct (Z.ltb_spec (Z.min (Z.of_nat n) (Z.of_nat (String.length s))) 0) as [?|_]; [lia|].
  rewrite Z.sub_0_r. change (Z.to_nat 0) with 0%nat.
  destruct (Z.min_spec (Z.of_nat n) (Z.of_nat (String.length s))) as [[Hlt ->]|[Hle ->]];
    rewrite Nat2Z.id; [reflexivity|].
  apply substring_all. lia.
Qed.

Lemma length_slice_le (s : string) (stop : Z) :
  0 <= stop -> Z.of_nat (String.length (slice s 0 stop)) <= stop.
Proof.
  intros H. rewrite <- (Z2Nat.id stop H) at 1. rewrite slice_prefix.
  pose proof (length_substring_le 0 (Z.to_nat stop) s). lia.
Qed.

(** *** Splitting and joining *)

Lemma contains_char_cons (c a : ascii) (s : string) :
  contains (String c "") (String a s) = Ascii.eqb c a || contains (String c "") s.
Proof. cbn [contains startswith]. now destruct (Ascii.eqb c a), s. Qed.

Lemma split_cons (c : ascii) (s : string) :
  exists w ws, split c s = w :: ws.
Proof.
  induction s as [|a s [w [ws IH]]]; simpl; [now eexists _, _|].
  destruct (Ascii.eqb a c); [now eexists _, _|]. rewrite IH. now eexists _, _.
Qed.

(** The first item of [s.split(c)] is the text of [s] before its first
    [c]; the remaining items are the split of what follows that [c]. *)
Lemma split_first (c : ascii) (s : string) :
  exists w ws,
    split c s = w :: ws /\
    contains (String c "") w = false /\
    ((ws = [] /\ s = w) \/ (exists r, ws = split c r /\ s = w +:+ String c r)).
Proof.
  induction s as [|a s (w & ws & Hs & Hw & Hrest)]; simpl.
  - exists "", []. repeat split. now left.
  - destruct (Ascii.eqb_spec a c) as [->|Hne].
    + exists "", (split c s). repeat split. right. now exists s.
    + rewrite Hs. exists (String a w), ws. repeat split.
      * rewrite contains_char_cons, Hw, orb_false_r.
        apply Ascii.eqb_neq. congruence.
      * destruct Hrest as [[-> ->]|(r & -> & ->)]; [now left|].
        right. now exists r.
Qed.

Lemma split_no_sep (c : ascii) (s : string) :
  contains (String c "") s = false -> split c s = [s].
Proof.
  induction s as [|a s IH]; [reflexivity|].
  rewrite contains_char_cons, orb_false_iff. intros [Hac Hs]. simpl.
  rewrite Ascii.eqb_sym, Hac, (IH Hs). reflexivity.
Qed.

Lemma join_cons (sep w : string) (ws : list string) :
  ws <> [] -> join sep (w :: ws) = w +:+ sep +:+ join sep ws.
Proof. now destruct ws. Qed.

(** Joining the items of a split with the separator gives the string
    back. *)
Lemma join_split (c : ascii) (s : string) :
  join (String c "") (split c s) = s.
Proof.
  induction s as [|a s IH]; [reflexivity|]. simpl split.
  destruct (split_cons c s) as (w & ws & Hs). rewrite Hs in *.
  destruct (Ascii.eqb_spec a c) as [->|Hne].
  - rewrite join_cons by discriminate. now rewrite IH.
  - destruct ws as [|w' ws].
    + simpl in *. now subst.
    + rewrite join_cons by discriminate. rewrite join_cons in IH by discriminate.
      rewrite app_cons. now rewrite IH.
Qed.

Lemma split_app_sep (c : ascii) (w r : string) :
  contains (String c "") w = false ->
  split c (w +:+ String c r) = w :: split c r.
Proof.
  induction w as [|a w IH]; intros Hw.
  - rewrite app_nil_l. simpl. now rewrite Ascii.eqb_refl.
  - rewrite contains_char_cons, orb_false_iff in Hw. destruct Hw as [Hac Hw].
    rewrite app_cons. simpl. rewrite Ascii.eqb_sym, Hac, (IH Hw). reflexivity.
Qed.

(** Splitting a join of separator-free items gives the items back. *)
Lemma split_join (c : ascii) (items : list string) :
  items <> [] ->
  Forall (fun w => contains (String c "") w = false) items ->
  split c (join (String c "") items) = items.
Proof.
  intros Hne Hall. induction Hall as [|w ws Hw Hws IH]; [easy|].
  destruct ws as [|w' ws].
  - simpl. now apply split_no_sep.
  - rewrite join_cons by discriminate. rewrite app_cons, app_nil_l.
    rewrite split_app_sep by assumption. now rewrite IH.
Qed.

End PyFacts.

(** ** The retry loop *)

Lemma sleep_ok (secs : Z) (w : World) :
  sleepable secs ->
  sleep secs w
  = Ok {| environ := environ w; iflogger_level := iflogger_level w;
          slept := slept w ++ [secs]; runs := runs w |}.
Proof.
  unfold sleepable, sleep. intros H.
  destruct (secs <? - SLEEP_MAX) eqn:E1; [apply Z.ltb_lt in E1; lia|].
  destruct (SLEEP_MAX <? secs) eqn:E2; [apply Z.ltb_lt in E2; lia|].
  destruct (secs <? 0) eqn:E3; [apply Z.ltb_lt in E3; lia|]. reflexivity.
Qed.

(** [sleep] raises [ValueError] or [OverflowError] and nothing else, and
    what it leaves behind when it sleeps differs in the sleep log only. *)
Lemma sleep_cases (secs : Z) (w : World) :
  sleep secs w = Raise ValueError \/
  sleep secs w = Raise OverflowError \/
  exists w', sleep secs w = Ok w' /\
             environ w' = environ w /\ iflogger_level w' = iflogger_level w.
Proof.
  unfold sleep. destruct (_ || _); [tauto|]. destruct (secs <? 0); [tauto|].
  right; right. now eexists.
Qed.

Lemma sleep_negative (secs : Z) (w : World) :
  - SLEEP_MAX <= secs < 0 -> sleep secs w = Raise ValueError.
Proof.
  unfold sleep. intros H.
  destruct (secs <? - SLEEP_MAX) eqn:E1; [apply Z.ltb_lt in E1; lia|].
  destruct (SLEEP_MAX <? secs) eqn:E2; [apply Z.ltb_lt in E2; lia|].
  destruct (secs <? 0) eqn:E3; [reflexivity | apply Z.ltb_ge in E3; lia].
Qed.

Section LoopFacts.

Variable exec : Executor.
Variable self : PBSPlugin.
Variable node : Node.
Variable cmd : CommandLine.
Variable oldlevel : Z.

Local Abbreviation loop := (submit_loop exec self node cmd oldlevel).

(** The loop ends within [_max_tries - tries + 1] iterations. *)
Lemma submit_loop_terminates (fuel : nat) (tries : Z) (w : World) :
  (Z.to_nat (_max_tries self - tries) < fuel)%nat ->
  exists r, loop fuel tries w = Some r.
Proof.
  revert tries w. induction fuel as [|fuel IH]; intros tries w Hfuel; [lia|].
  simpl. destruct (exec cmd _) as [e|e|r]; [|now eexists..].
  destruct (Z.ltb_spec tries (_max_tries self)) as [Hlt|Hge]; [|now eexists].
  destruct (sleep _ _) as [w'|e']; [|now eexists].
  apply IH. lia.
Qed.

(** More fuel does not change a result. *)
Lemma submit_loop_fuel_mono (fuel fuel' : nat) (tries : Z) (w : World) r :
  loop fuel tries w = Some r -> (fuel <= fuel')%nat -> loop fuel' tries w = Some r.
Proof.
  revert fuel' tries w. induction fuel as [|fuel IH]; intros fuel' tries w H Hle;
    [discriminate|].
  destruct fuel' as [|fuel']; [lia|]. simpl in *.
  destruct (exec cmd _); [|assumption..].
  destruct (tries <? _max_tries self); [|assumption].
  destruct (sleep _ _); [|assumption].
  apply IH; [assumption | lia].
Qed.

(** Where the loop leaves the logger and the environment: the
    submission error comes with the logger back at [oldlevel]; a result,
    an error of [sleep] and an exception that is not an [Exception] leave
    the logger as the loop found it. *)
Lemma submit_loop_frame (fuel : nat) (tries : Z) (w : World) res w' :
  loop fuel tries w = Some (res, w') ->
  environ w' = environ w /\
  match res with
  | Ok _ => iflogger_level w' = iflogger_level w
  | Raise (RuntimeError _) => iflogger_level w' = oldlevel
  | Raise ValueError | Raise OverflowError | Raise (NotException _) =>
      iflogger_level w' = iflogger_level w
  | Raise (KeyError _) | Raise IndexError => False
  end.
Proof.
  revert tries w. induction fuel as [|fuel IH]; intros tries w H; [discriminate|].
  simpl in H. destruct (exec cmd _) as [e|e|r].
  - destruct (tries <? _max_tries self).
    + destruct (sleep_cases (_retry_timeout self) (record_run cmd w))
        as [Hs|[Hs|(w1 & Hs & Henv & Hlvl)]]; rewrite Hs in H.
      * injection H as <- <-. now split.
      * injection H as <- <-. now split.
      * apply IH in H as [Henv' Hres]. rewrite Henv, Hlvl in *. now split.
    + injection H as <- <-. now split.
  - injection H as <- <-. now split.
  - injection H as <- <-. now split.
Qed.

(** [k] failures in a row, all within the retry budget, are [k]
    recorded runs and [k] sleeps of [_retry_timeout], as long as that is
    a duration [sleep] accepts. *)
Lemma submit_loop_retry (k fuel : nat) (tries : Z) (w : World) :
  (forall i, (i < k)%nat -> exists e, exec cmd (length (runs w) + i)%nat = Raised e) ->
  Z.of_nat k <= Z.max 0 (_max_tries self - tries) ->
  ((0 < k)%nat -> sleepable (_retry_timeout self)) ->
  loop (k + fuel) tries w =
  loop fuel (tries + Z.of_nat k) (after_failures cmd (_retry_timeout self) k w).
Proof.
  revert tries w. induction k as [|k IH]; intros tries w Hfail Hk Hsleep.
  - simpl. rewrite Z.add_0_r. f_equal. destruct w. unfold after_failures. simpl.
    now rewrite !app_nil_r.
  - change (S k + fuel)%nat with (S (k + fuel)). cbn [submit_loop].
    destruct (Hfail 0%nat) as [e He]; [lia|]. rewrite Nat.add_0_r in He. rewrite He.
    destruct (Z.ltb_spec tries (_max_tries self)) as [_|?]; [|lia].
    rewrite sleep_ok by (apply Hsleep; lia).
    rewrite IH.
    + f_equal; [lia|]. unfold after_failures, record_run. simpl.
      now rewrite <- !List.app_assoc.
    + intros i Hi. destruct (Hfail (S i)) as [e' He']; [lia|]. exists e'.
      rewrite <- He'. f_equal. simpl. rewrite List.length_app. simpl. lia.
    + lia.
    + intros _. apply Hsleep. lia.
Qed.

Lemma length_runs_after_failures (secs : Z) (k : nat) (w : World) :
  length (runs (after_failures cmd secs k w)) = (length (runs w) + k)%nat.
Proof. simpl. now rewrite List.length_app, repeat_length. Qed.

(** [k] failures within the budget and then a result. *)
Lemma submit_loop_succeeds_after (k fuel : nat) (w : World) r :
  (forall i, (i < k)%nat -> exists e, exec cmd (length (runs w) + i)%nat = Raised e) ->
  exec cmd (length (runs w) + k)%nat = Returned r ->
  Z.of_nat k <= Z.max 0 (_max_tries self) ->
  ((0 < k)%nat -> sleepable (_retry_timeout self)) ->
  loop (k + S fuel) 0 w =
  Some (Ok r, record_run cmd (after_failures cmd (_retry_timeout self) k w)).
Proof.
  intros Hfail Hok Hk Hsleep. rewrite submit_loop_retry by (assumption || lia).
  cbn [submit_loop]. now rewrite length_runs_after_failures, Hok.
Qed.

(** Failures only: the budget of [_max_tries] retries is used up and
    the run after it raises the submission error. *)
Lemma submit_loop_exhausted (fuel : nat) (w : World) e :
  let k := Z.to_nat (_max_tries self) in
  (forall i, (i < k)%nat -> exists e', exec cmd (length (runs w) + i)%nat = Raised e') ->
  exec cmd (length (runs w) + k)%nat = Raised e ->
  ((0 < k)%nat -> sleepable (_retry_timeout self)) ->
  loop (k + S fuel) 0 w =
  Some (Raise (submit_error node e),
        setLevel oldlevel
          (record_run cmd (after_failures cmd (_retry_timeout self) k w))).
Proof.
  intros k Hfail Hlast Hsleep. subst k.
  rewrite submit_loop_retry by (assumption || lia).
  cbn [submit_loop]. rewrite length_runs_after_failures, Hlast.
  destruct (Z.ltb_spec (0 + Z.of_nat (Z.to_nat (_max_tries self))) (_max_tries self))
    as [?|_]; [lia|].
  reflexivity.
Qed.

End LoopFacts.

(** ** The whole method *)

(** The ambient state after [k] failed runs and one more run, made with
    the logger at [lvl] and followed by its reset to [lvl']. *)
Lemma world_after_runs (cmd : CommandLine) (secs lvl lvl' : Z) (k : nat) (w : World) :
  setLevel lvl' (record_run cmd (after_failures cmd secs k (setLevel lvl w)))
  = {| environ := environ w; iflogger_level := lvl';
       slept := slept w ++ repeat secs k;
       runs := runs w ++ repeat (cmd, lvl) (S k) |}.
Proof.
  unfold setLevel, record_run, after_failures. simpl. f_equal.
  rewrite <- List.app_assoc. f_equal. symmetry. apply repeat_cons.
Qed.

(** The text of a reply before its first dot is the first item of its
    split on the dot. *)
Lemma split_before_first_dot (s : string) :
  exists rest, Py.split "." s = Spec.before_first_dot s :: rest.
Proof.
  induction s as [|c s [rest IH]]; simpl; [now eexists|].
  destruct (Ascii.eqb c "."); [now eexists|]. rewrite IH. now eexists.
Qed.

Section MethodFacts.

Variable side : MergeSide.
Variable exec : Executor.
Variable self : PBSPlugin.
Variable w : World.
Variable scriptfile : string.
Variable node : Node.


(** The method always comes to an end, and it leaves the environment as
    it was.  When it returns, it has changed one key of [_pending] and
    the logger level is back.  When it raises, the plugin object is
    untouched; the logger level is back with the submission error (and
    was never changed with the [KeyError]), and it is left at [CRITICAL]
    with an error of [sleep] and with an exception of the run that is
    not an [Exception].  [IndexError] is never raised. *)
Lemma submit_batchtask_outcome :
  exists res self' w',
    _submit_batchtask side exec self w scriptfile node = Some (res, self', w') /\
    environ w' = environ w /\
    match res with
    | Ok taskid =>
        self' = set_pending (<[taskid := output_dir node]> (_pending self)) self /\
        iflogger_level w' = iflogger_level w
    | Raise (RuntimeError _) | Raise (KeyError _) =>
        self' = self /\ iflogger_level w' = iflogger_level w
    | Raise ValueError | Raise OverflowError | Raise (NotException _) =>
        self' = self /\ iflogger_level w' = CRITICAL
    | Raise IndexError => False
    end.
Proof.
  unfold _submit_batchtask, submit_batchtask_fuel.
  destruct (environ w !! "LOGNAME") as [logname|]; [|now eexists _, _, _].
  set (cmd := submit_command side self logname scriptfile node).
  destruct (submit_loop_terminates exec self node cmd (iflogger_level w)
              (submit_fuel self) 0 (setLevel CRITICAL w)) as [[res w1] Hloop].
  { unfold submit_fuel. lia. }
  rewrite Hloop. apply submit_loop_frame in Hloop as [Henv Hlvl].
  destruct res as [r|e].
  - destruct (split_before_first_dot (stdout r)) as (rest & Hsplit).
    rewrite Hsplit. simpl. now eexists _, _, _.
  - eexists _, _, _. split; [reflexivity|]. split; [assumption|].
    destruct e; try contradiction; now split.
Qed.

Variable logname : string.
Hypothesis Hlogname : environ w !! "LOGNAME" = Some logname.

Local Abbreviation cmd := (submit_command side self logname scriptfile node).

(** [k] failed runs within the budget, each followed by a sleep, and
    then a run with a result: the method returns the text of the reply
    before its first dot and registers it; the logger is back at its
    level, the sleeps and the runs (all at level [CRITICAL]) are on
    record. *)
Lemma submit_batchtask_succeeds_after (k : nat) (r : Runtime) :
  (forall i, (i < k)%nat -> exists e, exec cmd (length (runs w) + i)%nat = Raised e) ->
  exec cmd (length (runs w) + k)%nat = Returned r ->
  Z.of_nat k <= Z.max 0 (_max_tries self) ->
  ((0 < k)%nat -> sleepable (_retry_timeout self)) ->
  exists rest,
    Py.split "." (stdout r) = Spec.before_first_dot (stdout r) :: rest /\
    _submit_batchtask side exec self w scriptfile node
    = Some (Ok (Spec.before_first_dot (stdout r)),
            set_pending (<[Spec.before_first_dot (stdout r) := output_dir node]>
                           (_pending self)) self,
            {| environ := environ w; iflogger_level := iflogger_level w;
               slept := slept w ++ repeat (_retry_timeout self) k;
               runs := runs w ++ repeat (cmd, CRITICAL) (S k) |}).
Proof.
  intros Hfail Hok Hk Hsleep.
  destruct (split_before_first_dot (stdout r)) as (rest & Hsplit).
  exists rest. split; [assumption|].
  unfold _submit_batchtask, submit_batchtask_fuel. rewrite Hlogname.
  rewrite (submit_loop_fuel_mono exec self node cmd (iflogger_level w)
             (k + 1) (submit_fuel self) 0 (setLevel CRITICAL w)
             (Ok r, record_run cmd
                      (after_failures cmd (_retry_timeout self) k (setLevel CRITICAL w)))).
  - rewrite Hsplit. simpl. now rewrite world_after_runs.
  - now apply submit_loop_succeeds_after.
  - unfold submit_fuel. lia.
Qed.

(** Failures only: [_max_tries] retries with their sleeps, and the run
    after them, the [_max_tries + 1]-th, raises the submission error. *)
Lemma submit_batchtask_exhausted (e : string) :
  let k := Z.to_nat (_max_tries self) in
  (forall i, (i < k)%nat -> exists e', exec cmd (length (runs w) + i)%nat = Raised e') ->
  exec cmd (length (runs w) + k)%nat = Raised e ->
  ((0 < k)%nat -> sleepable (_retry_timeout self)) ->
  _submit_batchtask side exec self w scriptfile node
  = Some (Raise (submit_error node e), self,
          {| environ := environ w; iflogger_level := iflogger_level w;
             slept := slept w ++ repeat (_retry_timeout self) k;
             runs := runs w ++ repeat (cmd, CRITICAL) (S k) |}).
Proof.
  intros k Hfail Hlast Hsleep.
  unfold _submit_batchtask, submit_batchtask_fuel. rewrite Hlogname.
  unfold submit_fuel. fold k. replace (S k) with (k + 1)%nat at 1 by lia.
  subst k. rewrite (submit_loop_exhausted _ _ _ _ _ _ _ e); [|assumption..].
  now rewrite world_after_runs.
Qed.

(** A first run that fails, within the budget, with a retry interval
    that [sleep] refuses: the error of [sleep] leaves the method, with
    the logger at [CRITICAL] and nothing registered. *)
Lemma submit_batchtask_sleep_raises (e : string) :
  exec cmd (length (runs w)) = Raised e ->
  0 < _max_tries self ->
  ~ sleepable (_retry_timeout self) ->
  exists exn w',
    _submit_batchtask side exec self w scriptfile node = Some (Raise exn, self, w') /\
    (exn = ValueError \/ exn = OverflowError) /\
    iflogger_level w' = CRITICAL /\
    slept w' = slept w.
Proof.
  intros Hrun Hmax Hsleep.
  unfold _submit_batchtask, submit_batchtask_fuel. rewrite Hlogname.
  unfold submit_fuel. cbn [submit_loop]. change (runs (setLevel CRITICAL w)) with (runs w).
  rewrite Hrun. destruct (Z.ltb_spec 0 (_max_tries self)) as [_|?]; [|lia].
  unfold sleep, sleepable in *.
  destruct ((_ <? - SLEEP_MAX) || (SLEEP_MAX <? _)) eqn:E1.
  - eexists _, _. split; [reflexivity|]. now repeat split; try right.
  - destruct (_retry_timeout self <? 0) eqn:E2.
    + eexists _, _. split; [reflexivity|]. now repeat split; try left.
    + apply orb_false_iff in E1 as [E1 E3].
      apply Z.ltb_ge in E1, E2, E3. lia.
Qed.

(** A run that raises something that is not an [Exception], after [k]
    failed runs within the budget: the exception leaves the method, with
    the logger at [CRITICAL] and nothing registered. *)
Lemma submit_batchtask_interrupted (k : nat) (b : BaseExc) :
  (forall i, (i < k)%nat -> exists e, exec cmd (length (runs w) + i)%nat = Raised e) ->
  exec cmd (length (runs w) + k)%nat = Interrupted b ->
  Z.of_nat k <= Z.max 0 (_max_tries self) ->
  ((0 < k)%nat -> sleepable (_retry_timeout self)) ->
  exists w',
    _submit_batchtask side exec self w scriptfile node
    = Some (Raise (NotException b), self, w') /\
    iflogger_level w' = CRITICAL.
Proof.
  intros Hfail Hint Hk Hsleep.
  unfold _submit_batchtask, submit_batchtask_fuel. rewrite Hlogname.
  rewrite (submit_loop_fuel_mono exec self node cmd (iflogger_level w)
             (k + 1) (submit_fuel self) 0 (setLevel CRITICAL w)
             (Raise (NotException b),
              record_run cmd
                (after_failures cmd (_retry_timeout self) k (setLevel CRITICAL w)))).
  - now eexists.
  - rewrite submit_loop_retry by (assumption || lia).
    cbn [submit_loop]. rewrite length_runs_after_failures.
    change (runs (setLevel CRITICAL w)) with (runs w). now rewrite Hint.
  - unfold submit_fuel. lia.
Qed.

End MethodFacts.

(** ** Status classification *)

(** C1.  [_is_pending] answers false (the job has finished) exactly when
    the standard output of the status query contains [job_state = C], or
    its standard error contains [Job has finished], or its standard error
    contains [Unknown Job Id]; for every other pair of outputs it answers
    true (the job is pending). *)
Theorem is_pending_classification (qstat : CommandLine -> Runtime) (taskid : string) :
  let result := qstat (status_command taskid) in
  let finished :=
    Py.occurs_in "job_state = C" (stdout result) \/
    Py.occurs_in "Job has finished" (stderr result) \/
    Py.occurs_in "Unknown Job Id" (stderr result) in
  (_is_pending qstat taskid = false <-> finished) /\
  (_is_pending qstat taskid = true <-> ~ finished).
Proof.
  intros result finished. subst finished. unfold _is_pending. fold result.
  rewrite <- !PyFacts.contains_spec.
  destruct (Py.contains "Job has finished" (stderr result));
    destruct (Py.contains "job_state = C" (stdout result));
    destruct (Py.contains "Unknown Job Id" (stderr result)); simpl;
    intuition congruence.
Qed.

(** The query that is classified is [qstat -f <taskid>]. *)
Example is_pending_unknown_job :
  _is_pending Sample.qstat_unknown "1234" = false /\
  command (status_command "1234") = "qstat -f 1234".
Proof. split; reflexivity. Qed.

(** ** Job names *)

Lemma concat_join (sep : string) (items : list string) :
  String.concat sep items = Py.join sep items.
Proof. induction items as [|x [|y items] IH]; try reflexivity. Qed.

Lemma segments_from_split (cur s : string) :
  Spec.segments_from cur s =
  match Py.split "." s with
  | w :: ws => (cur +:+ w) :: ws
  | [] => [cur]
  end.
Proof.
  revert cur. induction s as [|c s IH]; intros cur; simpl.
  - now rewrite PyFacts.app_nil_r.
  - destruct (Ascii.eqb c ".").
    + rewrite IH, PyFacts.app_nil_r.
      now destruct (PyFacts.split_cons "." s) as (w & ws & ->).
    + rewrite IH. destruct (PyFacts.split_cons "." s) as (w & ws & ->).
      now rewrite PyFacts.app_assoc.
Qed.

Lemma segments_split (s : string) : Spec.segments s = Py.split "." s.
Proof.
  unfold Spec.segments. rewrite segments_from_split.
  now destruct (PyFacts.split_cons "." s) as (w & ws & ->).
Qed.

Lemma dotted_join (logname hierarchy id : string) :
  (if Py.truthy hierarchy then Py.join "." [logname; hierarchy; id]
   else Py.join "." [logname; id])
  = Spec.dotted logname hierarchy id.
Proof. now destruct hierarchy. Qed.

(** C4.  The job name is the user name, the hierarchy and the leaf id
    joined with dots (user name and leaf id only when the hierarchy is
    empty), split on the dot, reversed, rejoined with dots and cut to its
    first [maxLen] characters; user [alice], hierarchy [wf.branch], leaf
    id [node1] and a maximum of 15 give [node1.branch.wf]. *)
Theorem build_jobname_spec (logname hierarchy id : string) (maxLen : nat) :
  build_jobname logname hierarchy id (Z.of_nat maxLen)
  = Spec.buildJobName logname hierarchy id maxLen /\
  build_jobname "alice" "wf.branch" "node1" 15 = "node1.branch.wf".
Proof.
  split; [|reflexivity].
  unfold build_jobname, Spec.buildJobName.
  rewrite dotted_join, PyFacts.slice_prefix, segments_split.
  now rewrite <- (concat_join ".").
Qed.

(** When no part contains a dot, the name before truncation is the leaf
    id, the hierarchy and the user name, in this order. *)
Lemma build_jobname_reversed (logname hierarchy id : string) (maxLen : nat) :
  Py.contains "." logname = false ->
  Py.contains "." hierarchy = false ->
  Py.contains "." id = false ->
  hierarchy <> "" ->
  build_jobname logname hierarchy id (Z.of_nat maxLen)
  = String.substring 0 maxLen (id +:+ "." +:+ hierarchy +:+ "." +:+ logname).
Proof.
  intros Hl Hh Hi Hne. unfold build_jobname.
  destruct hierarchy as [|c h]; [easy|]. cbn [Py.truthy].
  rewrite (PyFacts.split_join "." [logname; String c h; id]);
    [|discriminate | now repeat constructor].
  now rewrite PyFacts.slice_prefix.
Qed.

(** The truncation boundary: [c.b.a.u] cut to three characters. *)
Example build_jobname_boundary : build_jobname "u" "a.b" "c" 3 = "c.b".
Proof. reflexivity. Qed.

(** A negative bound is a slice bound like any other: it drops
    characters from the end of the name. *)
Example build_jobname_negative_bound :
  build_jobname "alice" "wf.branch" "node1" (-3) = "node1.branch.wf.al".
Proof. reflexivity. Qed.

(** C9.  With a non-negative configured maximum, the job name is at most
    that many characters long, whatever the user name, the hierarchy and
    the leaf id. *)
Theorem jobname_length_bound (logname hierarchy id : string) (max_jobname_len : Z) :
  0 <= max_jobname_len ->
  Z.of_nat (String.length (build_jobname logname hierarchy id max_jobname_len))
  <= max_jobname_len.
Proof. intros H. unfold build_jobname. now apply PyFacts.length_slice_le. Qed.

Lemma jobname_length_bound_witness :
  Z.of_nat (String.length (build_jobname "alice" "wf.branch" "node1" 15)) <= 15.
Proof. apply (jobname_length_bound "alice" "wf.branch" "node1" 15). lia. Defined.

(** The settings [__init__] leaves when no plugin arguments are given. *)
Lemma init_defaults (q : option string) (p : gmap string string) :
  _retry_timeout (__init__ None q p) = 2 /\
  _max_tries (__init__ None q p) = 2 /\
  _max_jobname_len (__init__ None q p) = 15.
Proof. now repeat split. Qed.

(** ** The submission command *)

Lemma with_redirects_default (path qsubargs : string) :
  Py.contains "-o" qsubargs = false ->
  Py.contains "-e" (qsubargs +:+ " -o " +:+ path) = false ->
  with_redirects path qsubargs = qsubargs +:+ " -o " +:+ path +:+ " -e " +:+ path.
Proof.
  intros Ho He. unfold with_redirects. rewrite Ho. cbn [negb]. rewrite He. cbn [negb].
  now rewrite !PyFacts.app_assoc.
Qed.

(** A redirection flag that is already among the arguments is not added
    again. *)
Lemma with_redirects_given (path qsubargs : string) :
  Py.contains "-o" qsubargs = true ->
  Py.contains "-e" qsubargs = true ->
  with_redirects path qsubargs = qsubargs.
Proof. intros Ho He. unfold with_redirects. rewrite Ho. cbn [negb]. now rewrite He. Qed.


(** *** Counting a flag text *)

Lemma occurrences_nil (a : ascii) (n : string) :
  Spec.occurrences (String a n) "" = 0%nat.
Proof. reflexivity. Qed.


Lemma contains_occurrences (needle s : string) :
  Py.contains needle s = negb (Nat.eqb (Spec.occurrences needle s) 0).
Proof.
  induction s as [|c s IH].
  - cbn [Py.contains Spec.occurrences]. rewrite orb_false_r.
    now destruct (Py.startswith needle "").
  - cbn [Py.contains Spec.occurrences]. rewrite IH.
    destruct (Py.startswith needle (String c s)); [reflexivity|].
    now destruct (Spec.occurrences needle s).
Qed.


Lemma contains_true_occurrences (needle s : string) :
  Py.contains needle s = true <-> (1 <= Spec.occurrences needle s)%nat.
Proof.
  rewrite contains_occurrences. destruct (Spec.occurrences needle s); simpl;
    split; intros H; (congruence || lia).
Qed.










(** A node that gives both flags, in place of the global arguments:
    they reach the command as they are, and nothing is added. *)
Example submit_command_caller_flags :
  args (submit_command Incoming Sample.plugin0 "alice" Sample.script1
          Sample.node_with_redirects)
  = "-o /logs/out -e /logs/err -N node1.branch.wf /data/wf/batchscript_node1.sh".
Proof. reflexivity. Qed.

(** The [HEAD] side at the sample input. *)
Example submit_command_head :
  args (submit_command HEAD Sample.plugin0 "alice" Sample.script1 Sample.node1)
  = " " +:+ dquote +:+ python_exe +:+ " /data/wf/node1.py" +:+ dquote
    +:+ " | qsub  -o /data/wf -e /data/wf -N node1.branch.wf".
Proof. reflexivity. Qed.

(** ** Submission, retries and the registry *)

Lemma sleepable_default : sleepable (_retry_timeout Sample.plugin0).
Proof. unfold sleepable, SLEEP_MAX. simpl. lia. Qed.

(** C2, on the code.  With the default [_max_tries] of 2 and an executor
    that raises at every run, the method raises the submission error,
    naming the node and the last error, after three runs of the command
    and two sleeps. *)
Theorem submit_exhaustion_default_runs (side : MergeSide) :
  exists w',
    _submit_batchtask side Sample.always_failing Sample.plugin0 Sample.world0
      Sample.script1 Sample.node1
    = Some (Raise (submit_error Sample.node1 "qsub: cannot connect"),
            Sample.plugin0, w') /\
    _max_tries Sample.plugin0 = 2 /\
    length (runs w') = 3%nat /\
    slept w' = [2; 2].
Proof.
  eexists. split.
  - apply (submit_batchtask_exhausted side Sample.always_failing Sample.plugin0
            Sample.world0 Sample.script1 Sample.node1 "alice");
      [reflexivity | now eexists | reflexivity | intros _; apply sleepable_default].
  - now repeat split.
Qed.

(** C6.  The method always ends; when it returns a task id, [_pending]
    has become the old registry with that task id mapped to the node's
    output directory, and when it raises, [_pending] is what it was. *)
Theorem submit_registers_iff_success (side : MergeSide) (exec : Executor)
    (self : PBSPlugin) (w : World) (scriptfile : string) (node : Node) :
  exists res self' w',
    _submit_batchtask side exec self w scriptfile node = Some (res, self', w') /\
    match res with
    | Ok taskid =>
        _pending self' = <[taskid := output_dir node]> (_pending self) /\
        _pending self' !! taskid = Some (output_dir node)
    | Raise _ => _pending self' = _pending self
    end.
Proof.
  destruct (submit_batchtask_outcome side exec self w scriptfile node)
    as (res & self' & w' & Hrun & _ & Hres).
  exists res, self', w'. split; [assumption|].
  destruct res as [taskid|e].
  - destruct Hres as [-> _]. simpl. split; [reflexivity | apply lookup_insert_eq].
  - destruct e; try contradiction; now destruct Hres as [-> _].
Qed.

(** C8, on the code.  Two calls that end with the logger left at
    [CRITICAL], not at the level it had before (20): one in which the
    user interrupts the first run of the command, so that an exception
    that is not an [Exception] passes the handler, and one with a retry
    interval of [-1], in which [sleep] raises [ValueError] inside the
    handler after the first failed run.  Neither exit passes a
    [setLevel(oldlevel)]. *)
Theorem submit_leaves_logger_at_critical (side : MergeSide) :
  iflogger_level Sample.world0 = 20 /\
  (exists w',
     _submit_batchtask side Sample.interrupted Sample.plugin0 Sample.world0
       Sample.script1 Sample.node1
     = Some (Raise (NotException KeyboardInterrupt), Sample.plugin0, w') /\
     iflogger_level w' = CRITICAL) /\
  (exists w',
     _submit_batchtask side Sample.always_failing Sample.plugin_negative_timeout
       Sample.world0 Sample.script1 Sample.node1
     = Some (Raise ValueError, Sample.plugin_negative_timeout, w') /\
     iflogger_level w' = CRITICAL /\
     slept w' = []).
Proof.
  split; [reflexivity|]. split.
  - eexists. split; reflexivity.
  - eexists. split; [reflexivity|]. now split.
Qed.

(** On the exits that the code provides for, the return and the
    submission error, and on the [KeyError] before the level is touched,
    the logger level is what it was before the call. *)
Lemma submit_restores_level_when_handled (side : MergeSide) (exec : Executor)
    (self self' : PBSPlugin) (w w' : World) (scriptfile : string) (node : Node) res :
  _submit_batchtask side exec self w scriptfile node = Some (res, self', w') ->
  (forall e, res <> Raise (NotException e)) ->
  res <> Raise ValueError ->
  res <> Raise OverflowError ->
  iflogger_level w' = iflogger_level w.
Proof.
  intros Hrun Hb Hv Ho.
  destruct (submit_batchtask_outcome side exec self w scriptfile node)
    as (res0 & s & w0 & Hrun0 & _ & Hres).
  rewrite Hrun in Hrun0. injection Hrun0 as <- <- <-.
  destruct res as [taskid|e]; [now destruct Hres|].
  destruct e; try contradiction; try (now destruct Hres); try congruence.
Qed.

Lemma before_first_dot_no_dot (s : string) :
  Py.contains "." s = false -> Spec.before_first_dot s = s.
Proof.
  intros H. destruct (split_before_first_dot s) as [rest Hs].
  rewrite (PyFacts.split_no_sep "." s H) in Hs. congruence.
Qed.



(** C5, as the claim has it, fails.  An empty reply of the scheduler has
    no task id in it, and yet the method raises nothing: it returns the
    empty string and registers it as a key of [_pending]. *)
Lemma malformed_reply_counterexample :
  (forall e self' w',
     _submit_batchtask HEAD Sample.empty_reply Sample.plugin0 Sample.world0
       Sample.script1 Sample.node1 <> Some (Raise e, self', w')) /\
  exists self' w',
    _submit_batchtask HEAD Sample.empty_reply Sample.plugin0 Sample.world0
      Sample.script1 Sample.node1 = Some (Ok "", self', w') /\
    _pending self' !! "" = Some "/data/wf/node1".
Proof.
  destruct (submit_batchtask_succeeds_after HEAD Sample.empty_reply Sample.plugin0
              Sample.world0 Sample.script1 Sample.node1 "alice" eq_refl 0
              {| stdout := ""; stderr := "" |}) as (rest & Hsplit & Hrun).
  { intros i Hi. lia. }
  { reflexivity. }
  { simpl. lia. }
  { intros Hk. lia. }
  cbn [stdout Spec.before_first_dot] in Hrun.
  rewrite Hrun. split; [discriminate|].
  eexists _, _. split; [reflexivity|]. apply lookup_insert_eq.
Qed.

(** C5, amended.  Whatever the scheduler wrote to standard output in the
    run that succeeded, a reply with no task id in it included, the
    method raises no error: it returns the text of the reply before its
    first dot and registers it in [_pending] with the node's output
    directory; that text is the whole reply when the reply has no dot,
    and the empty string when the reply is empty.  The run that succeeds
    is the first one or comes after failures within the retry budget,
    slept after with a retry interval that [sleep] accepts. *)
Theorem submit_accepts_any_reply (side : MergeSide) (exec : Executor)
    (self : PBSPlugin) (w : World) (scriptfile : string) (node : Node)
    (logname : string) (k : nat) (r : Runtime) :
  environ w !! "LOGNAME" = Some logname ->
  Z.of_nat k <= Z.max 0 (_max_tries self) ->
  ((0 < k)%nat -> sleepable (_retry_timeout self)) ->
  (forall i, (i < k)%nat ->
     exists e, exec (submit_command side self logname scriptfile node)
                 (length (runs w) + i)%nat = Raised e) ->
  exec (submit_command side self logname scriptfile node) (length (runs w) + k)%nat
  = Returned r ->
  exists self' w',
    _submit_batchtask side exec self w scriptfile node
    = Some (Ok (Spec.before_first_dot (stdout r)), self', w') /\
    _pending self' !! Spec.before_first_dot (stdout r) = Some (output_dir node) /\
    (Py.contains "." (stdout r) = false -> Spec.before_first_dot (stdout r) = stdout r) /\
    (stdout r = "" -> Spec.before_first_dot (stdout r) = "").
Proof.
  intros Hlogname Hk Hsleep Hfail Hok.
  destruct (submit_batchtask_succeeds_after side exec self w scriptfile node
              logname Hlogname k r Hfail Hok Hk Hsleep) as (rest & Hsplit & Hrun).
  eexists _, _. split; [exact Hrun|]. split; [apply lookup_insert_eq|]. split.
  - apply before_first_dot_no_dot.
  - now intros ->.
Qed.

Lemma submit_accepts_any_reply_witness :
  exists self' w',
    _submit_batchtask Incoming Sample.failing_once Sample.plugin0 Sample.world0
      Sample.script1 Sample.node1 = Some (Ok "1234", self', w') /\
    _pending self' !! "1234" = Some "/data/wf/node1" /\
    (Py.contains "." "1234.server" = false -> "1234" = "1234.server") /\
    ("1234.server" = "" -> "1234" = "").
Proof.
  apply (submit_accepts_any_reply Incoming Sample.failing_once Sample.plugin0
           Sample.world0 Sample.script1 Sample.node1 "alice" 1
           {| stdout := "1234.server"; stderr := "" |}).
  - reflexivity.
  - simpl. lia.
  - intros _. unfold sleepable, SLEEP_MAX. simpl. lia.
  - intros i Hi. exists "qsub: cannot connect". destruct i; [reflexivity | lia].
  - reflexivity.
Defined.

(** C10.  Reading the task id from the reply never raises: the task id
    is the text of the standard output before its first dot, it is the
    whole standard output when that has no dot, the empty string when it
    is empty, and it is registered in [_pending] with the node's output
    directory.  The reply is that of the first run, or of a run after
    failures within the retry budget, slept after with a retry interval
    that [sleep] accepts. *)
Theorem taskid_extraction_total (side : MergeSide) (exec : Executor)
    (self : PBSPlugin) (w : World) (scriptfile : string) (node : Node)
    (logname : string) (k : nat) (r : Runtime) :
  environ w !! "LOGNAME" = Some logname ->
  Z.of_nat k <= Z.max 0 (_max_tries self) ->
  ((0 < k)%nat -> sleepable (_retry_timeout self)) ->
  (forall i, (i < k)%nat ->
     exists e, exec (submit_command side self logname scriptfile node)
                 (length (runs w) + i)%nat = Raised e) ->
  exec (submit_command side self logname scriptfile node) (length (runs w) + k)%nat
  = Returned r ->
  exists taskid self' w',
    _submit_batchtask side exec self w scriptfile node = Some (Ok taskid, self', w') /\
    Py.item0 (Py.split "." (stdout r)) = Some taskid /\
    taskid = Spec.before_first_dot (stdout r) /\
    Py.contains "." taskid = false /\
    (stdout r = taskid \/ exists rest, stdout r = taskid +:+ "." +:+ rest) /\
    (Py.contains "." (stdout r) = false -> taskid = stdout r) /\
    (stdout r = "" -> taskid = "") /\
    _pending self' = <[taskid := output_dir node]> (_pending self).
Proof.
  intros Hlogname Hk Hsleep Hfail Hok.
  destruct (submit_batchtask_succeeds_after side exec self w scriptfile node
              logname Hlogname k r Hfail Hok Hk Hsleep) as (rest & Hsplit & Hrun).
  eexists _, _, _. split; [exact Hrun|]. rewrite Hsplit.
  destruct (PyFacts.split_first "." (stdout r)) as (t & ws & Hs & Ht & Hform).
  rewrite Hsplit in Hs. injection Hs as <- <-.
  split; [reflexivity|]. split; [reflexivity|]. split; [assumption|].
  split; [|split; [|split]].
  - destruct Hform as [[_ Hall]|(rest' & _ & Hall)]; [now left|].
    right. now exists rest'.
  - intros Hdot. now apply before_first_dot_no_dot.
  - now intros ->.
  - reflexivity.
Qed.

Lemma taskid_extraction_total_witness :
  exists taskid self' w',
    _submit_batchtask HEAD Sample.failing_once Sample.plugin0 Sample.world0
      Sample.script1 Sample.node1 = Some (Ok taskid, self', w') /\
    Py.item0 (Py.split "." "1234.server") = Some taskid /\
    taskid = "1234" /\
    Py.contains "." taskid = false /\
    ("1234.server" = taskid \/ exists rest, "1234.server" = taskid +:+ "." +:+ rest) /\
    (Py.contains "." "1234.server" = false -> taskid = "1234.server") /\
    ("1234.server" = "" -> taskid = "") /\
    _pending self' = <[taskid := "/data/wf/node1"]> ∅.
Proof.
  apply (taskid_extraction_total HEAD Sample.failing_once Sample.plugin0
           Sample.world0 Sample.script1 Sample.node1 "alice" 1
           {| stdout := "1234.server"; stderr := "" |}).
  - reflexivity.
  - simpl. lia.
  - intros _. unfold sleepable, SLEEP_MAX. simpl. lia.
  - intros i Hi. exists "qsub: cannot connect". destruct i; [reflexivity | lia].
  - reflexivity.
Defined.

(** ** Further properties of [_submit_batchtask] *)



(** X2.  When every run of the command raises an [Exception], and the
    retry interval is one that [sleep] accepts, the method raises the
    submission error with the node's id and the text of the last error,
    after [_max_tries + 1] runs ([1] run when [_max_tries] is zero or
    negative) and one sleep of [_retry_timeout] fewer; the logger level
    is back and the plugin object is untouched. *)
Theorem submit_exhaustion_attempts (side : MergeSide) (exec : Executor)
    (self : PBSPlugin) (w : World) (scriptfile : string) (node : Node)
    (logname : string) :
  environ w !! "LOGNAME" = Some logname ->
  sleepable (_retry_timeout self) ->
  (forall n, exists e,
     exec (submit_command side self logname scriptfile node) n = Raised e) ->
  exists e w',
    exec (submit_command side self logname scriptfile node)
      (length (runs w) + Z.to_nat (_max_tries self))%nat = Raised e /\
    _submit_batchtask side exec self w scriptfile node
    = Some (Raise (submit_error node e), self, w') /\
    length (runs w') = (length (runs w) + Z.to_nat (_max_tries self) + 1)%nat /\
    slept w' = (slept w ++ repeat (_retry_timeout self) (Z.to_nat (_max_tries self)))%list /\
    iflogger_level w' = iflogger_level w.
Proof.
  intros Hlogname Hsleep Hfail.
  destruct (Hfail (length (runs w) + Z.to_nat (_max_tries self))%nat) as [e He].
  exists e. eexists. split; [exact He|]. split.
  - apply (submit_batchtask_exhausted side exec self w scriptfile node logname Hlogname e);
      [|exact He|now intros _]. intros i _. apply Hfail.
  - simpl. repeat split. rewrite List.length_app. simpl. rewrite repeat_length. lia.
Qed.

Lemma submit_exhaustion_attempts_witness :
  exists e w',
    Sample.always_failing
      (submit_command Incoming Sample.plugin0 "alice" Sample.script1 Sample.node1)
      (0 + Z.to_nat 2)%nat = Raised e /\
    _submit_batchtask Incoming Sample.always_failing Sample.plugin0 Sample.world0
      Sample.script1 Sample.node1
    = Some (Raise (submit_error Sample.node1 e), Sample.plugin0, w') /\
    length (runs w') = (0 + Z.to_nat 2 + 1)%nat /\
    slept w' = ([] ++ repeat 2 (Z.to_nat 2))%list /\
    iflogger_level w' = 20.
Proof.
  apply (submit_exhaustion_attempts Incoming Sample.always_failing Sample.plugin0
           Sample.world0 Sample.script1 Sample.node1 "alice").
  - reflexivity.
  - unfold sleepable, SLEEP_MAX. simpl. lia.
  - intros n. now eexists.
Defined.




(** X4.  A call changes nothing of the plugin object but the registry
    entry of the task id it returns: every other key of [_pending] keeps
    its value, and the settings stay as they are. *)
Theorem submit_keeps_other_entries (side : MergeSide) (exec : Executor)
    (self : PBSPlugin) (w : World) (scriptfile : string) (node : Node) :
  exists res self' w',
    _submit_batchtask side exec self w scriptfile node = Some (res, self', w') /\
    (forall key, res <> Ok key -> _pending self' !! key = _pending self !! key) /\
    _qsub_args self' = _qsub_args self /\
    _retry_timeout self' = _retry_timeout self /\
    _max_tries self' = _max_tries self /\
    _max_jobname_len self' = _max_jobname_len self.
Proof.
  destruct (submit_batchtask_outcome side exec self w scriptfile node)
    as (res & self' & w' & Hrun & _ & Hres).
  exists res, self', w'. split; [assumption|].
  destruct res as [taskid|e].
  - destruct Hres as [-> _]. simpl. repeat split.
    intros key Hkey. apply lookup_insert_ne. intros Heq. apply Hkey. now rewrite Heq.
  - destruct e; try contradiction; destruct Hres as [-> _]; now repeat split.
Qed.

Lemma before_first_dot_app (id server : string) :
  Py.contains "." id = false ->
  Spec.before_first_dot (id +:+ "." +:+ server) = id.
Proof.
  intros Hid. destruct (split_before_first_dot (id +:+ "." +:+ server)) as [rest Hs].
  change ("." +:+ server) with (String "." server) in *.
  rewrite (PyFacts.split_app_sep "." id server Hid) in Hs. congruence.
Qed.

(** X5.  A reply of the form [<id>.<server>], with no dot in [<id>],
    makes the method return [<id>] and register it with the node's
    output directory. *)
Theorem submit_returns_id_before_server (side : MergeSide) (exec : Executor)
    (self : PBSPlugin) (w : World) (scriptfile : string) (node : Node)
    (logname : string) (k : nat) (r : Runtime) (id server : string) :
  environ w !! "LOGNAME" = Some logname ->
  Z.of_nat k <= Z.max 0 (_max_tries self) ->
  ((0 < k)%nat -> sleepable (_retry_timeout self)) ->
  (forall i, (i < k)%nat ->
     exists e, exec (submit_command side self logname scriptfile node)
                 (length (runs w) + i)%nat = Raised e) ->
  exec (submit_command side self logname scriptfile node) (length (runs w) + k)%nat
  = Returned r ->
  stdout r = id +:+ "." +:+ server ->
  Py.contains "." id = false ->
  exists self' w',
    _submit_batchtask side exec self w scriptfile node = Some (Ok id, self', w') /\
    _pending self' !! id = Some (output_dir node).
Proof.
  intros Hlogname Hk Hsleep Hfail Hok Hout Hid.
  destruct (submit_batchtask_succeeds_after side exec self w scriptfile node
              logname Hlogname k r Hfail Hok Hk Hsleep) as (rest & Hsplit & Hrun).
  rewrite Hout, (before_first_dot_app id server Hid) in Hrun.
  eexists _, _. split; [exact Hrun|]. apply lookup_insert_eq.
Qed.

Lemma submit_returns_id_before_server_witness :
  exists self' w',
    _submit_batchtask HEAD Sample.failing_once Sample.plugin0 Sample.world0
      Sample.script1 Sample.node1 = Some (Ok "1234", self', w') /\
    _pending self' !! "1234" = Some "/data/wf/node1".
Proof.
  apply (submit_returns_id_before_server HEAD Sample.failing_once Sample.plugin0
           Sample.world0 Sample.script1 Sample.node1 "alice" 1
           {| stdout := "1234.server"; stderr := "" |} "1234" "server").
  - reflexivity.
  - simpl. lia.
  - intros _. unfold sleepable, SLEEP_MAX. simpl. lia.
  - intros i Hi. exists "qsub: cannot connect". destruct i; [reflexivity | lia].
  - reflexivity.
  - reflexivity.
  - reflexivity.
Defined.

(** X6.  Two submissions one after the other: the registry ends up with
    both task ids, the second written over the first; when the two ids
    differ the first entry is still there, and when the scheduler hands
    out the same id twice the second output directory replaces the
    first. *)
Theorem submit_twice (side : MergeSide) (exec : Executor)
    (self self1 self2 : PBSPlugin) (w w1 w2 : World)
    (script1 script2 : string) (node1 node2 : Node) (t1 t2 : string) :
  _submit_batchtask side exec self w script1 node1 = Some (Ok t1, self1, w1) ->
  _submit_batchtask side exec self1 w1 script2 node2 = Some (Ok t2, self2, w2) ->
  _pending self2
  = <[t2 := output_dir node2]> (<[t1 := output_dir node1]> (_pending self)) /\
  _pending self2 !! t2 = Some (output_dir node2) /\
  (t1 <> t2 -> _pending self2 !! t1 = Some (output_dir node1)) /\
  (t1 = t2 -> _pending self2 = <[t2 := output_dir node2]> (_pending self)).
Proof.
  intros H1 H2.
  destruct (submit_batchtask_outcome side exec self w script1 node1)
    as (res & s & w' & Hrun & _ & Hs).
  rewrite H1 in Hrun. injection Hrun as <- <- <-. destruct Hs as [-> _].
  destruct (submit_batchtask_outcome side exec
              (set_pending (<[t1:=output_dir node1]> (_pending self)) self) w1 script2 node2)
    as (res & s & w' & Hrun & _ & Hs).
  rewrite H2 in Hrun. injection Hrun as <- <- <-. destruct Hs as [-> _]. simpl.
  split; [reflexivity|]. split; [apply lookup_insert_eq|]. split.
  - intros Hne. rewrite lookup_insert_ne by congruence. apply lookup_insert_eq.
  - intros ->. apply insert_insert_eq.
Qed.

Lemma submit_twice_witness :
  _pending Sample2.plugin2
  = <["2" := "/data/wf/node2"]> (<["1" := "/data/wf/node1"]> ∅) /\
  _pending Sample2.plugin2 !! "2" = Some "/data/wf/node2" /\
  ("1" <> "2" -> _pending Sample2.plugin2 !! "1" = Some "/data/wf/node1") /\
  ("1" = "2" -> _pending Sample2.plugin2 = <["2" := "/data/wf/node2"]> ∅).
Proof.
  apply (submit_twice HEAD Sample2.numbering Sample.plugin0 Sample2.plugin1
           Sample2.plugin2 Sample.world0 Sample2.world1 Sample2.world2
           Sample.script1 Sample2.script2 Sample.node1 Sample2.node2 "1" "2").
  - reflexivity.
  - reflexivity.
Defined.

(** X7.  A retry interval that [sleep] refuses makes the first failed
    run the last one: with retries allowed, the error of [sleep]
    ([ValueError] for a negative interval, [OverflowError] for one that
    does not fit) leaves the method after one run, with nothing slept,
    the plugin object untouched and the logger left at [CRITICAL]. *)
Theorem submit_unsleepable_interval (side : MergeSide) (exec : Executor)
    (self : PBSPlugin) (w : World) (scriptfile : string) (node : Node)
    (logname e : string) :
  environ w !! "LOGNAME" = Some logname ->
  exec (submit_command side self logname scriptfile node) (length (runs w)) = Raised e ->
  0 < _max_tries self ->
  ~ sleepable (_retry_timeout self) ->
  exists w',
    _submit_batchtask side exec self w scriptfile node
    = Some (Raise (if (_retry_timeout self <? - SLEEP_MAX)
                      || (SLEEP_MAX <? _retry_timeout self)
                   then OverflowError else ValueError), self, w') /\
    iflogger_level w' = CRITICAL /\
    slept w' = slept w /\
    length (runs w') = (length (runs w) + 1)%nat.
Proof.
  intros Hlogname Hrun Hmax Hsleep.
  unfold _submit_batchtask, submit_batchtask_fuel. rewrite Hlogname.
  unfold submit_fuel. cbn [submit_loop]. change (runs (setLevel CRITICAL w)) with (runs w).
  rewrite Hrun. destruct (Z.ltb_spec 0 (_max_tries self)) as [_|?]; [|lia].
  unfold sleep, sleepable in *.
  destruct ((_ <? - SLEEP_MAX) || (SLEEP_MAX <? _)) eqn:E1.
  - eexists. split; [reflexivity|]. simpl. repeat split.
    rewrite List.length_app. simpl. lia.
  - destruct (_retry_timeout self <? 0) eqn:E2.
    + eexists. split; [reflexivity|]. simpl. repeat split.
      rewrite List.length_app. simpl. lia.
    + apply orb_false_iff in E1 as [E1 E3].
      apply Z.ltb_ge in E1, E2, E3. lia.
Qed.

Lemma submit_unsleepable_interval_witness :
  exists w',
    _submit_batchtask HEAD Sample.always_failing Sample.plugin_negative_timeout
      Sample.world0 Sample.script1 Sample.node1
    = Some (Raise (if (-1 <? - SLEEP_MAX) || (SLEEP_MAX <? -1)
                   then OverflowError else ValueError),
            Sample.plugin_negative_timeout, w') /\
    iflogger_level w' = CRITICAL /\
    slept w' = [] /\
    length (runs w') = (0 + 1)%nat.
Proof.
  apply (submit_unsleepable_interval HEAD Sample.always_failing
           Sample.plugin_negative_timeout Sample.world0 Sample.script1 Sample.node1
           "alice" "qsub: cannot connect").
  - reflexivity.
  - reflexivity.
  - reflexivity.
  - unfold sleepable. simpl. lia.
Defined.

(** X8.  An exception of a run that is not an [Exception] (the user
    interrupts it, the interpreter exits) is not caught: it leaves the
    method as it is, also after failed runs that were retried, with the
    plugin object untouched and the logger left at [CRITICAL]. *)
Theorem submit_interrupted (side : MergeSide) (exec : Executor)
    (self : PBSPlugin) (w : World) (scriptfile : string) (node : Node)
    (logname : string) (k : nat) (b : BaseExc) :
  environ w !! "LOGNAME" = Some logname ->
  Z.of_nat k <= Z.max 0 (_max_tries self) ->
  ((0 < k)%nat -> sleepable (_retry_timeout self)) ->
  (forall i, (i < k)%nat ->
     exists e, exec (submit_command side self logname scriptfile node)
                 (length (runs w) + i)%nat = Raised e) ->
  exec (submit_command side self logname scriptfile node) (length (runs w) + k)%nat
  = Interrupted b ->
  exists w',
    _submit_batchtask side exec self w scriptfile node
    = Some (Raise (NotException b), self, w') /\
    iflogger_level w' = CRITICAL.
Proof.
  intros Hlogname Hk Hsleep Hfail Hint.
  now apply (submit_batchtask_interrupted side exec self w scriptfile node logname
               Hlogname k b).
Qed.

Lemma submit_interrupted_witness :
  exists w',
    _submit_batchtask HEAD Sample.interrupted Sample.plugin0 Sample.world0
      Sample.script1 Sample.node1
    = Some (Raise (NotException KeyboardInterrupt), Sample.plugin0, w') /\
    iflogger_level w' = CRITICAL.
Proof.
  apply (submit_interrupted HEAD Sample.interrupted Sample.plugin0 Sample.world0
           Sample.script1 Sample.node1 "alice" 0 KeyboardInterrupt).
  - reflexivity.
  - simpl. lia.
  - intros H. lia.
  - intros i Hi. lia.
  - reflexivity.
Defined.

(** ** Further facts about the string operations *)

Module PyMore.
Import Py.

Lemma occurs_in_app_l (needle a b : string) :
  occurs_in needle a -> occurs_in needle (a +:+ b).
Proof.
  intros (pre & post & ->). exists pre, (post +:+ b).
  now rewrite !PyFacts.app_assoc.
Qed.

Lemma occurs_in_app_r (needle a b : string) :
  occurs_in needle b -> occurs_in needle (a +:+ b).
Proof.
  intros (pre & post & ->). exists (a +:+ pre), post.
  now rewrite !PyFacts.app_assoc.
Qed.

Lemma contains_app_l (needle a b : string) :
  contains needle a = true -> contains needle (a +:+ b) = true.
Proof. rewrite !PyFacts.contains_spec. apply occurs_in_app_l. Qed.

Lemma contains_app_r (needle a b : string) :
  contains needle b = true -> contains needle (a +:+ b) = true.
Proof. rewrite !PyFacts.contains_spec. apply occurs_in_app_r. Qed.

Lemma length_substring_0 (m : nat) (s : string) :
  String.length (String.substring 0 m s) = Nat.min m (String.length s).
Proof.
  revert m. induction s as [|c s IH]; intros [|m]; simpl; try reflexivity.
  now rewrite IH.
Qed.

Lemma substring_0_prefix (m : nat) (s : string) :
  exists rest, s = String.substring 0 m s +:+ rest.
Proof.
  revert m. induction s as [|c s IH]; intros [|m]; simpl.
  - now exists "".
  - now exists "".
  - now exists (String c s).
  - destruct (IH m) as [rest Hrest]. exists rest.
    now rewrite PyFacts.app_cons, <- Hrest.
Qed.

Lemma substring_0_all (m : nat) (s : string) :
  (String.length s <= m)%nat -> String.substring 0 m s = s.
Proof.
  revert m. induction s as [|c s IH]; intros [|m] H; simpl in *;
    try reflexivity; try lia.
  f_equal. apply IH. lia.
Qed.

Lemma adjust_index_range (i len : Z) :
  0 <= len -> 0 <= adjust_index i len <= len.
Proof. intros H. unfold adjust_index. destruct (Z.ltb_spec i 0); lia. Qed.

(** [s[0:stop]] for any [stop]: the first characters of [s], as many as
    the adjusted bound says. *)
Lemma slice_0 (s : string) (stop : Z) :
  slice s 0 stop
  = String.substring 0 (Z.to_nat (adjust_index stop (Z.of_nat (String.length s)))) s.
Proof.
  unfold slice. rewrite PyFacts.adjust_index_0 by lia.
  pose proof (adjust_index_range stop (Z.of_nat (String.length s))) as Hr.
  destruct (Z.ltb_spec (adjust_index stop (Z.of_nat (String.length s))) 0); [lia|].
  now rewrite Z.sub_0_r.
Qed.

Lemma split_not_nil (c : ascii) (s : string) : split c s <> [].
Proof. destruct (PyFacts.split_cons c s) as (w & ws & ->). discriminate. Qed.

(** No item of a split contains the separator. *)
Lemma split_items_sep_free (c : ascii) (s : string) :
  Forall (fun w => contains (String c "") w = false) (split c s).
Proof.
  induction s as [|a s IH]; simpl.
  - now repeat constructor.
  - destruct (Ascii.eqb_spec a c) as [->|Hne].
    + now constructor.
    + destruct (PyFacts.split_cons c s) as (w & ws & Hs). rewrite Hs in *.
      inversion IH as [|? ? Hw Hws]; subst. constructor; [|assumption].
      rewrite PyFacts.contains_char_cons, Hw, orb_false_r.
      apply Ascii.eqb_neq. congruence.
Qed.

(** Splitting distributes over a separator in the middle. *)
Lemma split_app (c : ascii) (a b : string) :
  split c (a +:+ String c b) = (split c a ++ split c b)%list.
Proof.
  induction a as [|x a IH].
  - rewrite PyFacts.app_nil_l. simpl. now rewrite Ascii.eqb_refl.
  - rewrite PyFacts.app_cons. simpl. rewrite IH.
    destruct (Ascii.eqb x c); [reflexivity|].
    now destruct (PyFacts.split_cons c a) as (w & ws & ->).
Qed.

Lemma join_app (sep : string) (l1 l2 : list string) :
  l1 <> [] -> l2 <> [] ->
  join sep (l1 ++ l2) = join sep l1 +:+ sep +:+ join sep l2.
Proof.
  intros H1 H2. induction l1 as [|x l1 IH]; [easy|].
  destruct l1 as [|y l1].
  - simpl app. now rewrite PyFacts.join_cons.
  - change ((x :: y :: l1) ++ l2)%list with (x :: ((y :: l1) ++ l2))%list.
    rewrite PyFacts.join_cons by discriminate.
    rewrite IH by discriminate.
    rewrite (PyFacts.join_cons sep x (y :: l1)) by discriminate.
    now rewrite !PyFacts.app_assoc.
Qed.

(** The length of a join is the lengths of the items and of the
    separators between them. *)
Lemma length_join (sep : string) (items : list string) :
  items <> [] ->
  (String.length (join sep items) + String.length sep)%nat
  = list_sum (map (fun w => String.length w + String.length sep)%nat items).
Proof.
  intros Hne. induction items as [|x items IH]; [easy|].
  destruct items as [|y items].
  - unfold list_sum. simpl. lia.
  - specialize (IH ltac:(discriminate)).
    rewrite PyFacts.join_cons by discriminate.
    rewrite !PyFacts.length_app. cbn [map] in IH |- *.
    unfold list_sum in *. cbn [fold_right] in IH |- *. lia.
Qed.

Lemma list_sum_rev (l : list nat) : list_sum (rev l) = list_sum l.
Proof.
  induction l as [|x l IH]; [reflexivity|].
  simpl. rewrite list_sum_app, IH. simpl. lia.
Qed.

End PyMore.

Lemma rev_not_nil {A} (l : list A) : l <> [] -> rev l <> [].
Proof.
  destruct l as [|x l]; [easy|]. intros _ H. apply (f_equal (@length A)) in H.
  simpl in H. rewrite List.length_app in H. simpl in H. lia.
Qed.

(** Reversing the segments of [a.b] gives the reversed segments of [b],
    a dot, and the reversed segments of [a]. *)
Lemma reverse_segments_app (a b : string) :
  reverse_segments (a +:+ "." +:+ b)
  = reverse_segments b +:+ "." +:+ reverse_segments a.
Proof.
  unfold reverse_segments. change ("." +:+ b) with (String "." b).
  rewrite PyMore.split_app, rev_app_distr.
  apply PyMore.join_app; apply rev_not_nil, PyMore.split_not_nil.
Qed.

(** Reversing the segments twice gives the string back. *)
Lemma reverse_segments_involutive (s : string) :
  reverse_segments (reverse_segments s) = s.
Proof.
  unfold reverse_segments.
  rewrite (PyFacts.split_join "." (rev (Py.split "." s))).
  - rewrite rev_involutive. apply PyFacts.join_split.
  - apply rev_not_nil, PyMore.split_not_nil.
  - apply Forall_rev, PyMore.split_items_sep_free.
Qed.

(** Reversing the segments keeps the length. *)
Lemma length_reverse_segments (s : string) :
  String.length (reverse_segments s) = String.length s.
Proof.
  unfold reverse_segments.
  pose proof (PyMore.length_join "." (rev (Py.split "." s))
                (rev_not_nil _ (PyMore.split_not_nil "." s))) as Hrev.
  pose proof (PyMore.length_join "." (Py.split "." s) (PyMore.split_not_nil "." s)) as Hs.
  rewrite map_rev, PyMore.list_sum_rev in Hrev.
  rewrite PyFacts.join_split in Hs. lia.
Qed.

Lemma build_jobname_unfold (logname hierarchy id : string) (max_jobname_len : Z) :
  build_jobname logname hierarchy id max_jobname_len
  = Py.slice (reverse_segments (Spec.dotted logname hierarchy id)) 0 max_jobname_len.
Proof. unfold build_jobname. now rewrite dotted_join. Qed.

(** ** Further properties of the job name *)

(** X9.  Before truncation the job name is made of the reversed segments
    of the leaf id, of the hierarchy (when there is one) and of the user
    name, in this order and separated by dots; dots inside a part split
    it into segments of their own. *)
Theorem build_jobname_reverses_parts (logname hierarchy id : string) (maxLen : nat) :
  build_jobname logname hierarchy id (Z.of_nat maxLen)
  = String.substring 0 maxLen
      match hierarchy with
      | EmptyString => reverse_segments id +:+ "." +:+ reverse_segments logname
      | String _ _ =>
          reverse_segments id +:+ "." +:+ reverse_segments hierarchy
            +:+ "." +:+ reverse_segments logname
      end.
Proof.
  rewrite build_jobname_unfold, PyFacts.slice_prefix. f_equal.
  destruct hierarchy as [|c h]; unfold Spec.dotted.
  - apply reverse_segments_app.
  - rewrite reverse_segments_app, reverse_segments_app.
    now rewrite !PyFacts.app_assoc.
Qed.

(** X10.  When the bound is at least the length of the dotted name, nothing
    is cut off: the job name is as long as the dotted name, and reversing
    its segments gives the dotted name back. *)
Theorem build_jobname_untruncated (logname hierarchy id : string) (max_jobname_len : Z) :
  Z.of_nat (String.length (Spec.dotted logname hierarchy id)) <= max_jobname_len ->
  String.length (build_jobname logname hierarchy id max_jobname_len)
  = String.length (Spec.dotted logname hierarchy id) /\
  reverse_segments (build_jobname logname hierarchy id max_jobname_len)
  = Spec.dotted logname hierarchy id.
Proof.
  intros Hlen. rewrite build_jobname_unfold.
  rewrite <- (Z2Nat.id max_jobname_len) by lia. rewrite PyFacts.slice_prefix.
  rewrite PyMore.substring_0_all by (rewrite length_reverse_segments; lia).
  split; [apply length_reverse_segments | apply reverse_segments_involutive].
Qed.

Lemma build_jobname_untruncated_witness :
  String.length (build_jobname "alice" "wf.branch" "node1" 30)
  = String.length (Spec.dotted "alice" "wf.branch" "node1") /\
  reverse_segments (build_jobname "alice" "wf.branch" "node1" 30)
  = Spec.dotted "alice" "wf.branch" "node1".
Proof.
  apply (build_jobname_untruncated "alice" "wf.branch" "node1" 30).
  simpl. lia.
Defined.

(** X11.  For every bound, negative ones included, the job name is the
    leading part of the reversed dotted name: [min(bound, length)]
    characters of it for a bound that is not negative, and all but the
    last [-bound] characters (nothing, when there are not that many) for
    a negative bound. *)
Theorem build_jobname_any_bound (logname hierarchy id : string) (max_jobname_len : Z) :
  let full := reverse_segments (Spec.dotted logname hierarchy id) in
  let jobname := build_jobname logname hierarchy id max_jobname_len in
  (exists rest, full = jobname +:+ rest) /\
  Z.of_nat (String.length jobname)
  = if max_jobname_len <? 0
    then Z.max 0 (Z.of_nat (String.length full) + max_jobname_len)
    else Z.min max_jobname_len (Z.of_nat (String.length full)).
Proof.
  intros full jobname. subst jobname. rewrite build_jobname_unfold. fold full.
  rewrite PyMore.slice_0. split; [apply PyMore.substring_0_prefix|].
  rewrite PyMore.length_substring_0. unfold Py.adjust_index.
  destruct (Z.ltb_spec max_jobname_len 0); lia.
Qed.

(** ** Further properties of the submission arguments *)

(** After lines 80-83 the arguments contain the text [-o] and the text
    [-e], whatever they were before. *)
Lemma with_redirects_has_flags (path qsubargs : string) :
  Py.contains "-o" (with_redirects path qsubargs) = true /\
  Py.contains "-e" (with_redirects path qsubargs) = true.
Proof.
  unfold with_redirects.
  assert (Ho : Py.contains "-o"
                 (if negb (Py.contains "-o" qsubargs)
                  then qsubargs +:+ " -o " +:+ path else qsubargs) = true).
  { destruct (Py.contains "-o" qsubargs) eqn:E; simpl; [assumption|].
    apply PyMore.contains_app_r, PyFacts.contains_spec. now exists " ", (" " +:+ path). }
  set (q1 := if negb (Py.contains "-o" qsubargs)
             then qsubargs +:+ " -o " +:+ path else qsubargs) in *.
  destruct (Py.contains "-e" q1) eqn:E; simpl.
  - now split.
  - split; [now apply PyMore.contains_app_l|].
    apply PyMore.contains_app_r, PyFacts.contains_spec. now exists " ", (" " +:+ path).
Qed.

Lemma with_redirects_appends (path qsubargs : string) :
  exists added, with_redirects path qsubargs = qsubargs +:+ added.
Proof.
  unfold with_redirects.
  destruct (Py.contains "-o" qsubargs); cbn [negb];
    match goal with |- context [Py.contains "-e" ?q] => destruct (Py.contains "-e" q) end;
    cbn [negb]; eexists; rewrite ?PyFacts.app_assoc; try reflexivity.
  symmetry. apply PyFacts.app_nil_r.
Qed.

(** X12.  Lines 80-83 only ever append: what the caller gave stays the
    leading part of the arguments.  Afterwards the arguments contain the
    text [-o] and the text [-e], whatever they were before, so that
    ensuring the redirections a second time, with whatever directory,
    changes nothing. *)
Theorem with_redirects_ensures_flags (path path' qsubargs : string) :
  (exists added, with_redirects path qsubargs = qsubargs +:+ added) /\
  Py.contains "-o" (with_redirects path qsubargs) = true /\
  Py.contains "-e" (with_redirects path qsubargs) = true /\
  with_redirects path' (with_redirects path qsubargs) = with_redirects path qsubargs.
Proof.
  destruct (with_redirects_has_flags path qsubargs) as (Ho & He).
  split; [apply with_redirects_appends|]. split; [assumption|]. split; [assumption|].
  now apply with_redirects_given.
Qed.

(** X13.  On either side of the merge and for every input, the argument
    string of the submission command contains the texts [-o] and [-e]
    and the job name behind [ -N ]. *)
Theorem submit_command_always_has_flags (side : MergeSide) (self : PBSPlugin)
    (logname scriptfile : string) (node : Node) :
  let cmd := submit_command side self logname scriptfile node in
  let jobname :=
    build_jobname logname (_hierarchy node) (_id node) (_max_jobname_len self) in
  Py.contains "-o" (args cmd) = true /\
  Py.contains "-e" (args cmd) = true /\
  Py.occurs_in (" -N " +:+ jobname) (args cmd).
Proof.
  intros cmd jobname. subst cmd. unfold submit_command. fold jobname.
  destruct (with_redirects_has_flags (OsPath.dirname scriptfile)
              (merged_qsubargs self node)) as (Ho & He).
  set (qsubargs := with_redirects _ _) in *. cbn [args]. unfold submit_args.
  destruct side.
  - destruct (OsPath.splitext scriptfile) as [py_filename file_extension].
    repeat split.
    + do 7 apply PyMore.contains_app_r. now apply PyMore.contains_app_l.
    + do 7 apply PyMore.contains_app_r. now apply PyMore.contains_app_l.
    + do 8 apply PyMore.occurs_in_app_r. exists "", "".
      now rewrite PyFacts.app_nil_r.
  - repeat split.
    + now apply PyMore.contains_app_l.
    + now apply PyMore.contains_app_l.
    + apply PyMore.occurs_in_app_r. exists "", (" " +:+ scriptfile).
      now rewrite !PyFacts.app_assoc.
Qed.

(** ** Further properties of the status classification *)

(** X14.  A finished answer stays finished when the scheduler writes
    more around it: if the outputs of one status query classify the job
    as finished, so do outputs that contain them as a part. *)
Theorem is_pending_finished_is_stable (qstat qstat' : CommandLine -> Runtime)
    (taskid : string) :
  Py.occurs_in (stdout (qstat (status_command taskid)))
    (stdout (qstat' (status_command taskid))) ->
  Py.occurs_in (stderr (qstat (status_command taskid)))
    (stderr (qstat' (status_command taskid))) ->
  _is_pending qstat taskid = false ->
  _is_pending qstat' taskid = false.
Proof.
  intros (a & b & Hout) (c & d & Herr). unfold _is_pending. rewrite Hout, Herr.
  assert (Hgrow : forall needle s pre post,
            Py.contains needle s = true ->
            Py.contains needle (pre +:+ s +:+ post) = true).
  { intros needle s pre post H. now apply PyMore.contains_app_r, PyMore.contains_app_l. }
  destruct (Py.contains "Job has finished" (stderr (qstat _))) eqn:E1.
  { intros _. now rewrite (Hgrow _ _ c d E1). }
  destruct (Py.contains "job_state = C" (stdout (qstat _))) eqn:E2.
  { intros _. rewrite (Hgrow _ _ a b E2). now rewrite orb_true_r. }
  destruct (Py.contains "Unknown Job Id" (stderr (qstat _))) eqn:E3; [|discriminate].
  intros _. rewrite (Hgrow _ _ c d E3).
  now destruct (_ || _).
Qed.

Lemma is_pending_finished_is_stable_witness :
  _is_pending
    (fun _ => {| stdout := "";
                 stderr := "qstat: Unknown Job Id 1234.server" +:+ " (retry)" |})
    "1234" = false.
Proof.
  apply (is_pending_finished_is_stable Sample.qstat_unknown
           (fun _ => {| stdout := "";
                        stderr := "qstat: Unknown Job Id 1234.server" +:+ " (retry)" |})
           "1234").
  - now exists "", "".
  - now exists "", " (retry)".
  - reflexivity.
Defined.

(** ** [ExtractAdditionalSurfaceParameters._list_outputs] *)

Module SurfaceFacts.
Import Surface.

Lemma split_max_cons (c : ascii) (s : string) (n : nat) :
  exists w ws, split_max c s n = w :: ws.
Proof.
  revert n. induction s as [|a s IH]; intros n; simpl; [now eexists _, _|].
  destruct n as [|n]; [now eexists _, _|].
  destruct (Ascii.eqb a c); [now eexists _, _|].
  destruct (IH (S n)) as (w & ws & ->). now eexists _, _.
Qed.

(** [base.split(".", 2)[-1]] never raises. *)
Lemma original_filename_total (base : string) :
  original_filename base = Done (original_name base).
Proof.
  unfold original_filename, original_name, item_last.
  destruct (split_max_cons "." base 2) as (w & ws & Hs).
  destruct (rev (split_max "." base 2)) eqn:E; [|reflexivity].
  apply (f_equal (@rev string)) in E. rewrite rev_involutive, Hs in E. discriminate.
Qed.

Lemma split_max_app (c : ascii) (a b : string) (n : nat) :
  Py.contains (String c "") a = false ->
  split_max c (a +:+ String c b) (S n) = a :: split_max c b n.
Proof.
  induction a as [|x a IH]; intros Ha.
  - rewrite PyFacts.app_nil_l. simpl. now rewrite Ascii.eqb_refl.
  - rewrite PyFacts.contains_char_cons, orb_false_iff in Ha. destruct Ha as [Hx Ha].
    rewrite PyFacts.app_cons. cbn [split_max].
    rewrite Ascii.eqb_sym, Hx, (IH Ha). reflexivity.
Qed.

Lemma split_max_no_sep (c : ascii) (s : string) (n : nat) :
  Py.contains (String c "") s = false -> split_max c s n = [s].
Proof.
  revert n. induction s as [|a s IH]; intros n Hs; [reflexivity|].
  rewrite PyFacts.contains_char_cons, orb_false_iff in Hs. destruct Hs as [Ha Hs].
  destruct n as [|n]; [reflexivity|]. cbn [split_max].
  rewrite Ascii.eqb_sym, Ha, (IH (S n) Hs). reflexivity.
Qed.

Lemma split_max_0 (c : ascii) (s : string) : split_max c s 0 = [s].
Proof. now destruct s. Qed.

(** [posixpath.join] with a generated file name, which starts with the
    hemisphere and so is never absolute. *)
Lemma path_join_generated (pth hemisphere rest : string) :
  In hemisphere ["rh"; "lh"] ->
  path_join pth (hemisphere +:+ rest)
  = (if negb (Py.truthy pth) || endswith "/" pth then pth else pth +:+ "/")
      +:+ hemisphere +:+ rest.
Proof.
  intros [<-|[<-|[]]]; unfold path_join; cbn [Py.startswith PyFacts.app_cons];
    (destruct (negb (Py.truthy pth) || endswith "/" pth);
     [reflexivity | now rewrite PyFacts.app_assoc]).
Qed.

(** *** Appends on the outputs *)

Lemma all_present_get : all_present outputs_get.
Proof.
  intros key Hkey. simpl in Hkey.
  repeat (destruct Hkey as [<-|Hkey]; [now eexists|]). destruct Hkey.
Qed.

Lemma all_present_push (key x : string) (outputs : gmap string TraitValue) :
  all_present outputs -> all_present (push key x outputs).
Proof.
  intros H k Hk. unfold push. destruct (decide (key = k)) as [->|Hne].
  - rewrite lookup_insert_eq. now eexists.
  - rewrite lookup_insert_ne by assumption. now apply H.
Qed.

Lemma ensure_list_append (key x : string) (outputs : gmap string TraitValue) :
  is_Some (outputs !! key) ->
  exists o1,
    ensure_list outputs key = Done o1 /\
    (forall k, k <> key -> o1 !! k = outputs !! k) /\
    o1 !! key = Some (FileList (match outputs !! key with
                                | Some (FileList files) => files
                                | _ => []
                                end)).
Proof.
  intros [v Hv]. unfold ensure_list, getitem. rewrite Hv. simpl.
  destruct v as [|files]; simpl; eexists; (split; [reflexivity|]); split.
  - intros k Hk. now apply lookup_insert_ne.
  - apply lookup_insert_eq.
  - reflexivity.
  - assumption.
Qed.

(** The body of the innermost loop is two appends: one to the list of
    the parameter and one to the list of all files of the hemisphere. *)
Lemma add_generated_pushes (pth original parameter_name hemisphere : string)
    (outputs : gmap string TraitValue) :
  let name := hemisphere +:+ "_" +:+ parameter_name in
  let all := hemisphere +:+ "_extracted_files" in
  let x := path_join pth (Py.join "." [hemisphere; parameter_name; original]) in
  name <> all ->
  is_Some (outputs !! name) ->
  is_Some (outputs !! all) ->
  add_generated pth original parameter_name hemisphere outputs
  = Done (push all x (push name x outputs)).
Proof.
  intros name all x Hne Hname Hall. unfold add_generated. fold name all x.
  destruct (ensure_list_append name x outputs Hname) as (o1 & -> & Ho1 & Ho1n).
  cbn [bind].
  assert (Hall1 : is_Some (o1 !! all)) by (rewrite Ho1 by congruence; assumption).
  destruct (ensure_list_append all x o1 Hall1) as (o2 & -> & Ho2 & Ho2a).
  cbn [bind]. unfold append, getitem.
  rewrite (Ho2 name) by congruence. rewrite Ho1n. cbn [bind].
  rewrite lookup_insert_ne by congruence. rewrite Ho2a. cbn [bind].
  f_equal. apply map_eq. intros k. unfold push.
  destruct (decide (all = k)) as [<-|Hka].
  - rewrite !lookup_insert_eq. rewrite lookup_insert_ne by congruence.
    now rewrite (Ho1 all) by congruence.
  - rewrite !(lookup_insert_ne _ all) by assumption.
    destruct (decide (name = k)) as [<-|Hkn].
    + now rewrite !lookup_insert_eq.
    + rewrite !lookup_insert_ne by assumption.
      rewrite Ho2 by congruence. now rewrite Ho1 by congruence.
Qed.

Lemma all_present_pushes (events : list (string * string))
    (outputs : gmap string TraitValue) :
  all_present outputs -> all_present (pushes events outputs).
Proof.
  revert outputs. induction events as [|[k x] events IH]; intros outputs H; [assumption|].
  apply IH. now apply all_present_push.
Qed.

Lemma pushes_app (e1 e2 : list (string * string)) (outputs : gmap string TraitValue) :
  pushes (e1 ++ e2) outputs = pushes e2 (pushes e1 outputs).
Proof. apply fold_left_app. Qed.

Lemma for_each_app {A S} (body : A -> S -> Res S) (l1 l2 : list A) (s s1 : S) :
  for_each body l1 s = Done s1 ->
  for_each body (l1 ++ l2) s = for_each body l2 s1.
Proof.
  revert s. induction l1 as [|x l1 IH]; intros s H; simpl in *.
  - now injection H as ->.
  - destruct (body x s) as [s'|e]; simpl in *; [now apply IH | discriminate].
Qed.

Lemma for_each_cons {A S} (body : A -> S -> Res S) (x : A) (l : list A) (s : S) :
  for_each body (x :: l) s = bind (body x s) (for_each body l).
Proof. reflexivity. Qed.

Lemma flat_map_cons' {A B} (f : A -> list B) (x : A) (l : list A) :
  flat_map f (x :: l) = (f x ++ flat_map f l)%list.
Proof. reflexivity. Qed.

Lemma join3 (a b c : string) : Py.join "." [a; b; c] = a +:+ "." +:+ b +:+ "." +:+ c.
Proof. reflexivity. Qed.

Section FileLoop.

Variable split_filename : string -> string * string * string.

(** The two rounds of the loop over the hemispheres. *)
Lemma add_hemispheres (pth original parameter_name : string)
    (outputs : gmap string TraitValue) :
  In parameter_name ["gyrification"; "gmv"; "area"; "depth"; "fractaldimension"] ->
  all_present outputs ->
  for_each (add_generated pth original parameter_name) ["rh"; "lh"] outputs
  = Done (pushes
            (flat_map
               (fun hemisphere =>
                  let x := path_join pth
                             (Py.join "." [hemisphere; parameter_name; original]) in
                  [(hemisphere +:+ "_" +:+ parameter_name, x);
                   (hemisphere +:+ "_extracted_files", x)])
               ["rh"; "lh"])
            outputs).
Proof.
  intros Hp Hall. cbn [for_each flat_map app].
  assert (Hkeys : forall h o, In h ["rh"; "lh"] -> all_present o ->
            add_generated pth original parameter_name h o
            = Done (push (h +:+ "_extracted_files")
                      (path_join pth (Py.join "." [h; parameter_name; original]))
                      (push (h +:+ "_" +:+ parameter_name)
                         (path_join pth (Py.join "." [h; parameter_name; original])) o))).
  { intros h o Hh Ho. apply add_generated_pushes.
    - simpl in Hh, Hp.
      destruct Hh as [<-|[<-|[]]];
        repeat (destruct Hp as [<-|Hp]; [discriminate|]); destruct Hp.
    - apply Ho. simpl in Hh, Hp.
      destruct Hh as [<-|[<-|[]]];
        repeat (destruct Hp as [<-|Hp]; [vm_compute; tauto|]); destruct Hp.
    - apply Ho. simpl in Hh.
      destruct Hh as [<-|[<-|[]]]; vm_compute; tauto. }
  rewrite Hkeys by (simpl; tauto || assumption). cbn [bind].
  rewrite Hkeys; [reflexivity | simpl; tauto |].
  now repeat apply all_present_push.
Qed.

Lemma add_parameters (pth original : string) (params : list (bool * string))
    (outputs : gmap string TraitValue) :
  Forall (fun fp => In (snd fp)
            ["gyrification"; "gmv"; "area"; "depth"; "fractaldimension"]) params ->
  all_present outputs ->
  for_each
    (fun '(extracted_parameter, parameter_name) outputs =>
       if (extracted_parameter : bool) then
         for_each (add_generated pth original parameter_name) ["rh"; "lh"] outputs
       else Done outputs)
    params outputs
  = Done (pushes
            (flat_map
               (fun '(extracted_parameter, parameter_name) =>
                  if (extracted_parameter : bool) then
                    flat_map
                      (fun hemisphere =>
                         let x := path_join pth
                                    (Py.join "." [hemisphere; parameter_name; original]) in
                         [(hemisphere +:+ "_" +:+ parameter_name, x);
                          (hemisphere +:+ "_extracted_files", x)])
                      ["rh"; "lh"]
                  else [])
               params)
            outputs).
Proof.
  intros Hparams. revert outputs.
  induction Hparams as [|[flag p] params Hp Hparams IH]; intros outputs Hall;
    [reflexivity|].
  rewrite for_each_cons, flat_map_cons', pushes_app. destruct flag.
  - rewrite (add_hemispheres pth original p outputs Hp Hall). cbn [bind].
    apply IH. now apply all_present_pushes.
  - cbn [bind]. now apply IH.
Qed.

Lemma names_outputs_allowed (inputs : Inputs) :
  Forall (fun fp => In (snd fp)
            ["gyrification"; "gmv"; "area"; "depth"; "fractaldimension"])
    (names_outputs inputs).
Proof. unfold names_outputs. repeat constructor; simpl; tauto. Qed.

(** One round of the loop over the input files is the appends of
    [file_events]. *)
Lemma add_file_pushes (inputs : Inputs) (filename : string)
    (outputs : gmap string TraitValue) :
  all_present outputs ->
  add_file split_filename inputs filename outputs
  = Done (pushes (file_events split_filename inputs filename) outputs).
Proof.
  intros Hall. unfold add_file, file_events, generated_file.
  destruct (split_filename filename) as [[pth base] ext].
  rewrite original_filename_total. cbn [bind].
  rewrite (add_parameters pth (original_name base) (names_outputs inputs) outputs
             (names_outputs_allowed inputs) Hall).
  do 2 f_equal. apply flat_map_ext. intros [flag p]. destruct flag; [|reflexivity].
  cbn [flat_map app]. cbv zeta. rewrite !join3.
  rewrite (path_join_generated pth "rh" ("." +:+ p +:+ "." +:+ original_name base))
    by (simpl; tauto).
  rewrite (path_join_generated pth "lh" ("." +:+ p +:+ "." +:+ original_name base))
    by (simpl; tauto).
  reflexivity.
Qed.

(** The whole method is the appends of all the files, one file after
    the other, on the outputs that are not set. *)
Lemma list_outputs_pushes (inputs : Inputs) :
  _list_outputs split_filename inputs
  = Done (pushes (flat_map (file_events split_filename inputs)
                    (left_central_surfaces inputs))
            outputs_get).
Proof.
  unfold _list_outputs. generalize all_present_get. generalize outputs_get.
  induction (left_central_surfaces inputs) as [|f files IH]; intros outputs Hall;
    [reflexivity|].
  rewrite for_each_cons, flat_map_cons', add_file_pushes by assumption. cbn [bind].
  rewrite pushes_app. apply IH. now apply all_present_pushes.
Qed.

End FileLoop.

(** What a key holds after a series of appends. *)
Lemma pushes_lookup (events : list (string * string))
    (outputs : gmap string TraitValue) (key : string) :
  pushes events outputs !! key
  = match appended_to key events with
    | [] => outputs !! key
    | x :: l =>
        Some (FileList (match outputs !! key with
                        | Some (FileList files) => files
                        | _ => []
                        end ++ x :: l))
    end.
Proof.
  revert outputs. induction events as [|[k x] events IH]; intros outputs; [reflexivity|].
  cbn [pushes fold_left]. fold (pushes events (push k x outputs)). rewrite IH.
  unfold appended_to. cbn [List.filter fst].
  destruct (String.eqb_spec k key) as [->|Hne].
  - cbn [map snd]. unfold push. rewrite lookup_insert_eq.
    destruct (map snd (List.filter _ events)); [reflexivity|].
    now rewrite <- List.app_assoc.
  - unfold push. now rewrite lookup_insert_ne.
Qed.

Lemma appended_to_flat_map {A} (key : string) (g : A -> list (string * string))
    (l : list A) :
  appended_to key (flat_map g l) = flat_map (fun a => appended_to key (g a)) l.
Proof.
  unfold appended_to. induction l as [|a l IH]; [reflexivity|].
  cbn [flat_map]. now rewrite List.filter_app, List.map_app, IH.
Qed.

Lemma outputs_get_lookup (key : string) :
  In key output_names -> outputs_get !! key = Some Undefined.
Proof.
  intros Hkey. simpl in Hkey.
  repeat (destruct Hkey as [<-|Hkey]; [reflexivity|]). destruct Hkey.
Qed.

(** After the whole method, a trait of the output specification holds
    the files appended to it, and is not set when there are none. *)
Lemma list_outputs_lookup (split_filename : string -> string * string * string)
    (inputs : Inputs) (key : string) :
  In key output_names ->
  exists outputs,
    _list_outputs split_filename inputs = Done outputs /\
    outputs !! key
    = Some (output_of
              (flat_map (fun f => appended_to key (file_events split_filename inputs f))
                 (left_central_surfaces inputs))).
Proof.
  intros Hkey. eexists. split; [apply list_outputs_pushes|].
  rewrite pushes_lookup, appended_to_flat_map, (outputs_get_lookup key Hkey).
  now destruct (flat_map _ _).
Qed.

End SurfaceFacts.

Section SurfaceOutputs.

Import Surface.

Variable split_filename : string -> string * string * string.

Lemma file_events_parameter (inputs : Inputs) (f hemisphere parameter_name : string)
    (flag : bool) :
  In hemisphere ["rh"; "lh"] ->
  In (flag, parameter_name) (names_outputs inputs) ->
  appended_to (hemisphere +:+ "_" +:+ parameter_name)
    (file_events split_filename inputs f)
  = if flag then [generated_file split_filename f hemisphere parameter_name] else [].
Proof.
  intros Hh Hp. destruct inputs as [files g1 g2 g3 g4 g5].
  unfold names_outputs in Hp. simpl in Hh, Hp.
  destruct Hh as [<-|[<-|[]]];
    repeat (destruct Hp as [Hp|Hp]; [injection Hp as <- <-|]); try destruct Hp;
    destruct g1, g2, g3, g4, g5; reflexivity.
Qed.

Lemma file_events_extracted (inputs : Inputs) (f hemisphere : string) :
  In hemisphere ["rh"; "lh"] ->
  appended_to (hemisphere +:+ "_extracted_files") (file_events split_filename inputs f)
  = map (generated_file split_filename f hemisphere) (enabled_parameters inputs).
Proof.
  intros Hh. destruct inputs as [files g1 g2 g3 g4 g5]. simpl in Hh.
  destruct Hh as [<-|[<-|[]]]; destruct g1, g2, g3, g4, g5; reflexivity.
Qed.


Lemma flat_map_singleton {A B} (flag : bool) (g : A -> B) (l : list A) :
  flat_map (fun a => if flag then [g a] else []) l = if flag then map g l else [].
Proof. induction l as [|a l IH]; destruct flag; simpl in *; congruence. Qed.



(** X16.  The output of a parameter and a hemisphere: when the parameter
    is switched on, one generated file for each input file, in the order
    of the input files (not set when there is no input file); when it is
    switched off, not set. *)
Theorem list_outputs_parameter (inputs : Inputs) (hemisphere parameter_name : string)
    (flag : bool) :
  In hemisphere ["rh"; "lh"] ->
  In (flag, parameter_name) (names_outputs inputs) ->
  exists outputs,
    _list_outputs split_filename inputs = Done outputs /\
    outputs !! (hemisphere +:+ "_" +:+ parameter_name)
    = Some (if flag
            then output_of
                   (map (fun f => generated_file split_filename f hemisphere parameter_name)
                      (left_central_surfaces inputs))
            else Undefined).
Proof.
  intros Hh Hp.
  destruct (SurfaceFacts.list_outputs_lookup split_filename inputs
              (hemisphere +:+ "_" +:+ parameter_name)) as (outputs & Hrun & Hlook).
  { destruct inputs as [files g1 g2 g3 g4 g5]. unfold names_outputs in Hp.
    simpl in Hh, Hp.
    destruct Hh as [<-|[<-|[]]];
      repeat (destruct Hp as [Hp|Hp]; [injection Hp as <- <-; vm_compute; tauto|]);
      destruct Hp. }
  exists outputs. split; [assumption|]. rewrite Hlook. f_equal.
  rewrite (flat_map_ext _ _ (fun f => file_events_parameter inputs f _ _ flag Hh Hp)).
  rewrite flat_map_singleton. now destruct flag.
Qed.

Lemma list_outputs_extracted_lookup (inputs : Inputs) (hemisphere : string) :
  In hemisphere ["rh"; "lh"] ->
  exists outputs,
    _list_outputs split_filename inputs = Done outputs /\
    outputs !! (hemisphere +:+ "_extracted_files")
    = Some (output_of
              (flat_map
                 (fun f => map (generated_file split_filename f hemisphere)
                             (enabled_parameters inputs))
                 (left_central_surfaces inputs))).
Proof.
  intros Hh.
  destruct (SurfaceFacts.list_outputs_lookup split_filename inputs
              (hemisphere +:+ "_extracted_files")) as (outputs & Hrun & Hlook).
  { simpl in Hh. destruct Hh as [<-|[<-|[]]]; vm_compute; tauto. }
  exists outputs. split; [assumption|]. rewrite Hlook. do 2 f_equal.
  apply flat_map_ext. intros f. now apply file_events_extracted.
Qed.

(** X17.  The list of all extracted files of a hemisphere: for each input
    file in turn, the generated files of the parameters that are
    switched on, in the order gyrification, gmv, area, depth, fractal
    dimension (not set when this makes no file at all). *)
Theorem list_outputs_extracted_files (inputs : Inputs) (hemisphere : string) :
  In hemisphere ["rh"; "lh"] ->
  exists outputs,
    _list_outputs split_filename inputs = Done outputs /\
    outputs !! (hemisphere +:+ "_extracted_files")
    = Some (output_of
              (flat_map
                 (fun f => map (generated_file split_filename f hemisphere)
                             (enabled_parameters inputs))
                 (left_central_surfaces inputs))).
Proof. apply list_outputs_extracted_lookup. Qed.

Lemma length_flat_map_const {A B} (g : A -> list B) (n : nat) (l : list A) :
  (forall a, length (g a) = n) -> length (flat_map g l) = (length l * n)%nat.
Proof.
  intros Hg. induction l as [|a l IH]; [reflexivity|].
  cbn [flat_map]. rewrite List.length_app, Hg, IH. simpl. lia.
Qed.

(** X18.  Both hemispheres get the same number of files: the list of all
    extracted files of either has one entry for each input file and
    each parameter that is switched on. *)
Theorem list_outputs_counts (inputs : Inputs) (hemisphere : string) :
  In hemisphere ["rh"; "lh"] ->
  exists outputs v,
    _list_outputs split_filename inputs = Done outputs /\
    outputs !! (hemisphere +:+ "_extracted_files") = Some v /\
    length (files_of v)
    = (length (left_central_surfaces inputs) * length (enabled_parameters inputs))%nat.
Proof.
  intros Hh.
  destruct (list_outputs_extracted_lookup inputs hemisphere Hh) as (outputs & Hrun & Hlook).
  eexists outputs, _. split; [assumption|]. split; [exact Hlook|].
  set (l := flat_map _ _).
  assert (Hl : files_of (output_of l) = l) by now destruct l.
  rewrite Hl. subst l. apply length_flat_map_const. intros f. apply length_map.
Qed.

End SurfaceOutputs.

(** X19.  The original file name taken from a base name: what follows
    the second dot when the base name is [<a>.<b>.<rest>] (dots in
    [<rest>] are kept), what follows the dot when there is only one, and
    the whole base name when it has no dot. *)
Theorem original_filename_cases (a b rest : string) :
  Py.contains "." a = false ->
  Py.contains "." b = false ->
  Surface.original_filename (a +:+ "." +:+ b +:+ "." +:+ rest) = Surface.Done rest /\
  Surface.original_filename (a +:+ "." +:+ b) = Surface.Done b /\
  Surface.original_filename a = Surface.Done a.
Proof.
  intros Ha Hb. unfold Surface.original_filename.
  change ("." +:+ b +:+ "." +:+ rest) with (String "." (b +:+ String "." rest)).
  change ("." +:+ b) with (String "." b).
  rewrite !(SurfaceFacts.split_max_app "." a _ 1 Ha).
  rewrite (SurfaceFacts.split_max_app "." b rest 0 Hb).
  rewrite SurfaceFacts.split_max_0.
  rewrite (SurfaceFacts.split_max_no_sep "." b 1 Hb).
  rewrite (SurfaceFacts.split_max_no_sep "." a 2 Ha).
  now repeat split.
Qed.

Lemma original_filename_cases_witness :
  Surface.original_filename ("lh" +:+ "." +:+ "central" +:+ "." +:+ "sub.01")
  = Surface.Done "sub.01" /\
  Surface.original_filename ("lh" +:+ "." +:+ "central") = Surface.Done "central" /\
  Surface.original_filename "lh" = Surface.Done "lh".
Proof.
  apply (original_filename_cases "lh" "central" "sub.01"); reflexivity.
Defined.

Lemma list_outputs_parameter_witness :
  exists outputs,
    Surface._list_outputs Surface.split_sample Surface.sample_inputs
    = Surface.Done outputs /\
    outputs !! ("lh" +:+ "_" +:+ "gmv")
    = Some (if true
            then Surface.output_of
                   (map (fun f => Surface.generated_file Surface.split_sample f "lh" "gmv")
                      (Surface.left_central_surfaces Surface.sample_inputs))
            else Surface.Undefined).
Proof.
  apply (list_outputs_parameter Surface.split_sample Surface.sample_inputs
           "lh" "gmv" true); simpl; tauto.
Defined.

Lemma list_outputs_extracted_files_witness :
  exists outputs,
    Surface._list_outputs Surface.split_sample Surface.sample_inputs
    = Surface.Done outputs /\
    outputs !! ("rh" +:+ "_extracted_files")
    = Some (Surface.output_of
              (flat_map
                 (fun f => map (Surface.generated_file Surface.split_sample f "rh")
                             (Surface.enabled_parameters Surface.sample_inputs))
                 (Surface.left_central_surfaces Surface.sample_inputs))).
Proof.
  apply (list_outputs_extracted_files Surface.split_sample Surface.sample_inputs "rh").
  simpl; tauto.
Defined.

Lemma list_outputs_counts_witness :
  exists outputs v,
    Surface._list_outputs Surface.split_sample Surface.sample_inputs
    = Surface.Done outputs /\
    outputs !! ("lh" +:+ "_extracted_files") = Some v /\
    length (Surface.files_of v)
    = (length (Surface.left_central_surfaces Surface.sample_inputs)
       * length (Surface.enabled_parameters Surface.sample_inputs))%nat.
Proof.
  apply (list_outputs_counts Surface.split_sample Surface.sample_inputs "lh").
  simpl; tauto.
Defined.


(** The outputs for the sample input: gyrification, volume and area of
    one surface file. *)
Example list_outputs_sample :
  match Surface._list_outputs Surface.split_sample Surface.sample_inputs with
  | Surface.Done outputs =>
      outputs !! "lh_gmv" = Some (Surface.FileList ["/data/surf/lh.gmv.structural"]) /\
      outputs !! "rh_extracted_files"
      = Some (Surface.FileList ["/data/surf/rh.gyrification.structural";
                                "/data/surf/rh.gmv.structural";
                                "/data/surf/rh.area.structural"]) /\
      outputs !! "lh_depth" = Some Surface.Undefined
  | Surface.Raises _ => False
  end.
Proof. vm_compute. now repeat split. Qed.
